(** * Drawvy: the whiteboard component [src/components/Board/index.js]

    A shallow embedding of the [Board] component: its refs
    ([drawHistory], [historyPointer], [shouldDraw], [lastPos]), the canvas it
    draws on, the three effects and the pointer and socket handlers they
    install, followed by the properties of undo/redo, gesture handling,
    stroke rendering and remote replay.

    JavaScript numbers are IEEE 754 binary64 values: coordinates, pen widths
    and the device pixel ratio are primitive floats, whose arithmetic is the
    one the engine performs.  [historyPointer] only ever holds integers
    ([0], [length - 1], and [Math.max]/[Math.min] of those plus or minus one),
    far below 2^53, so it is a [Z]. *)

From Stdlib Require Import ZArith List Ascii String Bool Lia Floats.
Import ListNotations.

Set Warnings "-inexact-float,-register-all".
Local Open Scope Z_scope.

(* ================================================================== *)
(** * JavaScript values *)

Module Js.

(** [ToBoolean] on a number: [NaN], [+0] and [-0] are falsy. *)
Definition truthy (x : float) : bool :=
  negb (PrimFloat.is_nan x || PrimFloat.is_zero x).

(** [x || d] on numbers. *)
Definition or_else (x d : float) : float :=
  if truthy x then x else d.

(** [a[i]] on an array for an integral [i]: [None] is [undefined]
    (a negative or too large index reads no element). *)
Definition index {A : Type} (a : list A) (i : Z) : option A :=
  if i <? 0 then None else nth_error a (Z.to_nat i).

(** [a.length]. *)
Definition length {A : Type} (a : list A) : Z := Z.of_nat (List.length a).

(** WebIDL conversion of a number to [unsigned long]: non-finite values
    and zeros give 0, other values are truncated towards zero and reduced
    modulo 2^32. *)
Definition to_unsigned_long (x : float) : Z :=
  match Prim2SF x with
  | S754_finite s m e =>
      let mag := Z.shiftl (Z.pos m) e in
      (if s then - mag else mag) mod 2 ^ 32
  | _ => 0
  end.

(** The exceptions the component can run into: a [TypeError] of the
    language and its bindings, and the [IndexSizeError] of the DOM. *)
Inductive error : Type :=
| TypeError
| IndexSizeError.

End Js.

(* ================================================================== *)
(** * Colours

    Which strings are CSS colours is the browser's knowledge; the
    component is verified for any parser (the variable
    [parses_as_color] below).  [Css.hex_color] is one parser to run the
    component with: it knows the hexadecimal notations [#rgb], [#rgba],
    [#rrggbb] and [#rrggbbaa], which every browser accepts. *)

Module Css.

Definition is_hex_digit (c : Ascii.ascii) : bool :=
  let n := Ascii.nat_of_ascii c in
  (Nat.leb 48 n && Nat.leb n 57) ||
  (Nat.leb 65 n && Nat.leb n 70) ||
  (Nat.leb 97 n && Nat.leb n 102).

Fixpoint all_hex (s : string) : bool :=
  match s with
  | EmptyString => true
  | String c rest => is_hex_digit c && all_hex rest
  end.

Definition hex_color (s : string) : bool :=
  match s with
  | String "#"%char digits =>
      all_hex digits &&
      match String.length digits with
      | 3%nat | 4%nat | 6%nat | 8%nat => true
      | _ => false
      end
  | _ => false
  end.

End Css.

(* ================================================================== *)
(** * The drawing surface: a canvas and its 2D context

    The canvas is modelled as far as the component relies on it: path
    calls extend the current path, [stroke] inks it, assigning a dimension
    clears the surface and resets the context, an assignment to
    [strokeStyle] or [lineWidth] of a value the context does not accept is
    ignored, and [getImageData] of an empty rectangle throws.  The path
    takes the coordinates it is given (points are finite device
    coordinates, as the data model has them). *)

Record Point : Type := mkPoint { px : float; py : float }.

Inductive LineCap : Type := CapButt | CapRound | CapSquare.
Inductive LineJoin : Type := JoinMiter | JoinRound | JoinBevel.

(** The pen of a stroke: [strokeStyle], [lineWidth], [lineCap], [lineJoin]. *)
Record Pen : Type := mkPen {
  pen_color : string;
  pen_width : float;
  pen_cap : LineCap;
  pen_join : LineJoin
}.

(** The current transformation, kept as the [scale] calls applied since the
    last reset (the component uses no other transformation); [[]] is the
    identity. *)
Definition Transform : Type := list (float * float).

(** One element of the current path, in user coordinates. *)
Inductive PathCmd : Type :=
| PMove (p : Point)
| PLine (p : Point)
| PCurve (c1 c2 p : Point).

(** The path remembers under which transformation each element was added. *)
Definition Path : Type := list (Transform * PathCmd).

(** The pixel content of a surface is kept symbolically, as the drawing
    operations that produced it since the surface was last cleared; an
    [ImageData] is the rectangle [(ix, iy, iw, ih)] of such a content. *)
Inductive Ink : Type :=
| InkStroke (path : Path) (pen : Pen) (tf : Transform)
| InkPut (ix iy iw ih : Z) (source : list Ink) (dx dy : float).

Record ImageData : Type := mkImageData {
  ix : Z; iy : Z; iw : Z; ih : Z;
  idata : list Ink
}.

Definition ink_of_image (img : ImageData) (dx dy : float) : Ink :=
  InkPut (ix img) (iy img) (iw img) (ih img) (idata img) dx dy.

(** The result of [canvas.toDataURL]: the encoding of a whole surface. *)
Record DataURL : Type := mkDataURL {
  url_mime : string;
  url_width : Z;
  url_height : Z;
  url_pixels : list Ink
}.

Record Canvas : Type := mkCanvas {
  width : Z;
  height : Z;
  bitmap : list Ink;
  transform : Transform;
  strokeStyle : string;
  lineWidth : float;
  lineCap : LineCap;
  lineJoin : LineJoin;
  path : Path
}.

(** The straight and curved pieces a path consists of.  [moveTo] starts a
    subpath; [lineTo] and [bezierCurveTo] on a path without a subpath first
    start one at their (first) point. *)
Inductive Segment : Type :=
| SegLine (a b : Point)
| SegCurve (a c1 c2 b : Point).

Fixpoint segments_from (cur : option Point) (cmds : list PathCmd) : list Segment :=
  match cmds with
  | [] => []
  | PMove p :: rest => segments_from (Some p) rest
  | PLine p :: rest =>
      match cur with
      | None => segments_from (Some p) rest
      | Some a => SegLine a p :: segments_from (Some p) rest
      end
  | PCurve c1 c2 p :: rest =>
      match cur with
      | None => SegCurve c1 c1 c2 p :: segments_from (Some p) rest
      | Some a => SegCurve a c1 c2 p :: segments_from (Some p) rest
      end
  end.

Definition segments (p : Path) : list Segment := segments_from None (map snd p).

Module Canvas2D.

(** A canvas element as created: 300 x 150, transparent, with the
    context in its default state. *)
Definition fresh : Canvas :=
  mkCanvas 300 150 [] [] "#000000"%string 1%float CapButt JoinMiter [].

(** The value an [unsigned long] dimension attribute takes on assignment:
    values above 2^31 - 1 fall back to the attribute's default. *)
Definition dimension (v : float) (default : Z) : Z :=
  let n := Js.to_unsigned_long v in
  if n <=? 2147483647 then n else default.

(** Assigning [canvas.width] or [canvas.height], even to the value it
    has, sets the bitmap dimensions: the bitmap is cleared to transparent
    and the context goes back to its default state (identity
    transformation, empty path, stroke style [#000000], line width 1,
    butt caps, miter joins). *)
Definition set_width (v : float) (c : Canvas) : Canvas :=
  mkCanvas (dimension v 300) (height c) [] [] "#000000"%string 1%float CapButt JoinMiter [].

Definition set_height (v : float) (c : Canvas) : Canvas :=
  mkCanvas (width c) (dimension v 150) [] [] "#000000"%string 1%float CapButt JoinMiter [].

Definition scale (sx sy : float) (c : Canvas) : Canvas :=
  mkCanvas (width c) (height c) (bitmap c) (transform c ++ [(sx, sy)])
           (strokeStyle c) (lineWidth c) (lineCap c) (lineJoin c) (path c).

(** Assigning [strokeStyle] a string that does not parse as a colour
    is ignored; [parses] is the browser's colour parser.  The style is
    kept as the string that was assigned. *)
Definition set_strokeStyle (parses : string -> bool) (s : string) (c : Canvas)
  : Canvas :=
  mkCanvas (width c) (height c) (bitmap c) (transform c)
           (if parses s then s else strokeStyle c)
           (lineWidth c) (lineCap c) (lineJoin c) (path c).

(** A line width is a positive finite number. *)
Definition valid_width (w : float) : bool :=
  PrimFloat.is_finite w && PrimFloat.ltb 0 w.

(** Assigning [lineWidth] zero, a negative number, an infinity or [NaN]
    is ignored. *)
Definition set_lineWidth (w : float) (c : Canvas) : Canvas :=
  mkCanvas (width c) (height c) (bitmap c) (transform c)
           (strokeStyle c)
           (if valid_width w then w else lineWidth c)
           (lineCap c) (lineJoin c) (path c).

Definition set_lineCap (k : LineCap) (c : Canvas) : Canvas :=
  mkCanvas (width c) (height c) (bitmap c) (transform c)
           (strokeStyle c) (lineWidth c) k (lineJoin c) (path c).

Definition set_lineJoin (k : LineJoin) (c : Canvas) : Canvas :=
  mkCanvas (width c) (height c) (bitmap c) (transform c)
           (strokeStyle c) (lineWidth c) (lineCap c) k (path c).

Definition set_path (p : Path) (c : Canvas) : Canvas :=
  mkCanvas (width c) (height c) (bitmap c) (transform c)
           (strokeStyle c) (lineWidth c) (lineCap c) (lineJoin c) p.

Definition set_bitmap (i : list Ink) (c : Canvas) : Canvas :=
  mkCanvas (width c) (height c) i (transform c)
           (strokeStyle c) (lineWidth c) (lineCap c) (lineJoin c) (path c).

Definition beginPath (c : Canvas) : Canvas := set_path [] c.

Definition add_to_path (k : PathCmd) (c : Canvas) : Canvas :=
  set_path (path c ++ [(transform c, k)]) c.

Definition moveTo (x y : float) : Canvas -> Canvas :=
  add_to_path (PMove (mkPoint x y)).

Definition lineTo (x y : float) : Canvas -> Canvas :=
  add_to_path (PLine (mkPoint x y)).

Definition bezierCurveTo (cp1x cp1y cp2x cp2y x y : float) : Canvas -> Canvas :=
  add_to_path (PCurve (mkPoint cp1x cp1y) (mkPoint cp2x cp2y) (mkPoint x y)).

Definition pen (c : Canvas) : Pen :=
  mkPen (strokeStyle c) (lineWidth c) (lineCap c) (lineJoin c).

(** [stroke()] inks the whole current path with the current pen; the
    path stays. *)
Definition stroke (c : Canvas) : Canvas :=
  set_bitmap (bitmap c ++ [InkStroke (path c) (pen c) (transform c)]) c.

(** [getImageData] of a rectangle without width or without height
    throws an [IndexSizeError]: [None]. *)
Definition getImageData (sx sy sw sh : Z) (c : Canvas) : option ImageData :=
  if (sw =? 0) || (sh =? 0) then None
  else Some (mkImageData sx sy sw sh (bitmap c)).

(** [putImageData] copies the image's pixels over the surface at
    [(dx, dy)], whatever the transformation. *)
Definition putImageData (img : ImageData) (dx dy : float) (c : Canvas) : Canvas :=
  set_bitmap (bitmap c ++ [ink_of_image img dx dy]) c.

Definition toDataURL (mime : string) (c : Canvas) : DataURL :=
  mkDataURL mime (width c) (height c) (bitmap c).

End Canvas2D.

(** The calls the component makes on the canvas and its context, in the
    order it makes them. *)
Inductive Call : Type :=
| CSetWidth (v : float)
| CSetHeight (v : float)
| CScale (sx sy : float)
| CSetStrokeStyle (s : string)
| CSetLineWidth (w : float)
| CSetLineCap (k : LineCap)
| CSetLineJoin (k : LineJoin)
| CBeginPath
| CMoveTo (x y : float)
| CLineTo (x y : float)
| CBezierCurveTo (cp1x cp1y cp2x cp2y x y : float)
| CStroke
| CGetImageData (sx sy sw sh : Z)
| CPutImageData (img : ImageData) (dx dy : float)
| CToDataURL (mime : string).

(* ================================================================== *)
(** * The component's state *)

(** Modelled from the spec: the one-shot commands of the action dispatcher
    ([MENU_ITEMS] of [@/constants] and the [menu] slice are not part of the
    sources).  The store holds [Some] command or [None] ([null]), and
    [actionItemClick v] stores [v]. *)
Inductive Action : Type := DOWNLOAD | UNDO | REDO.

(** What the component sends over the socket. *)
Inductive StrokeMessage : Type :=
| BeginPath (p : Point)
| DrawLine (p : Point).

Record ConfigMessage : Type := mkConfig { color : string; size : float }.

(** A mouse event carries [clientX]/[clientY] itself; a touch event carries
    a [touches] list. *)
Inductive PointerEvent : Type :=
| MouseEvent (clientX clientY : float)
| TouchEvent (touches : list Point).

Record Board : Type := mkBoard {
  (* refs *)
  canvasRef : bool;                    (* canvasRef.current is not null *)
  canvas : Canvas;                     (* the element and its 2D context *)
  drawHistory : list ImageData;
  historyPointer : Z;
  shouldDraw : bool;
  lastPos : Point;
  (* component state and store *)
  isDrawing : bool;
  actionMenuItem : option Action;
  (* environment *)
  devicePixelRatio : float;            (* window.devicePixelRatio *)
  rectWidth : float;                   (* canvas.getBoundingClientRect() *)
  rectHeight : float;
  (* what the component did to the outside *)
  emitted : list StrokeMessage;        (* socket.emit, oldest first *)
  downloads : list (string * DataURL); (* clicked download anchors *)
  calls : list Call                    (* calls on the canvas, oldest first *)
}.

Definition set_canvas (v : Canvas) (b : Board) : Board :=
  mkBoard (canvasRef b) v (drawHistory b) (historyPointer b) (shouldDraw b)
          (lastPos b) (isDrawing b) (actionMenuItem b) (devicePixelRatio b)
          (rectWidth b) (rectHeight b) (emitted b) (downloads b) (calls b).

Definition set_drawHistory (v : list ImageData) (b : Board) : Board :=
  mkBoard (canvasRef b) (canvas b) v (historyPointer b) (shouldDraw b)
          (lastPos b) (isDrawing b) (actionMenuItem b) (devicePixelRatio b)
          (rectWidth b) (rectHeight b) (emitted b) (downloads b) (calls b).

Definition set_historyPointer (v : Z) (b : Board) : Board :=
  mkBoard (canvasRef b) (canvas b) (drawHistory b) v (shouldDraw b)
          (lastPos b) (isDrawing b) (actionMenuItem b) (devicePixelRatio b)
          (rectWidth b) (rectHeight b) (emitted b) (downloads b) (calls b).

Definition set_shouldDraw (v : bool) (b : Board) : Board :=
  mkBoard (canvasRef b) (canvas b) (drawHistory b) (historyPointer b) v
          (lastPos b) (isDrawing b) (actionMenuItem b) (devicePixelRatio b)
          (rectWidth b) (rectHeight b) (emitted b) (downloads b) (calls b).

Definition set_lastPos (v : Point) (b : Board) : Board :=
  mkBoard (canvasRef b) (canvas b) (drawHistory b) (historyPointer b) (shouldDraw b)
          v (isDrawing b) (actionMenuItem b) (devicePixelRatio b)
          (rectWidth b) (rectHeight b) (emitted b) (downloads b) (calls b).

Definition setIsDrawing (v : bool) (b : Board) : Board :=
  mkBoard (canvasRef b) (canvas b) (drawHistory b) (historyPointer b) (shouldDraw b)
          (lastPos b) v (actionMenuItem b) (devicePixelRatio b)
          (rectWidth b) (rectHeight b) (emitted b) (downloads b) (calls b).

(** Modelled from the spec: the reducer behind [actionItemClick] (the
    [menu] slice is not part of the sources) stores its payload as the
    current command. *)
Definition actionItemClick (v : option Action) (b : Board) : Board :=
  mkBoard (canvasRef b) (canvas b) (drawHistory b) (historyPointer b) (shouldDraw b)
          (lastPos b) (isDrawing b) v (devicePixelRatio b)
          (rectWidth b) (rectHeight b) (emitted b) (downloads b) (calls b).

Definition set_layout (dpr w h : float) (b : Board) : Board :=
  mkBoard (canvasRef b) (canvas b) (drawHistory b) (historyPointer b) (shouldDraw b)
          (lastPos b) (isDrawing b) (actionMenuItem b) dpr w h
          (emitted b) (downloads b) (calls b).

Definition set_emitted (v : list StrokeMessage) (b : Board) : Board :=
  mkBoard (canvasRef b) (canvas b) (drawHistory b) (historyPointer b) (shouldDraw b)
          (lastPos b) (isDrawing b) (actionMenuItem b) (devicePixelRatio b)
          (rectWidth b) (rectHeight b) v (downloads b) (calls b).

Definition set_downloads (v : list (string * DataURL)) (b : Board) : Board :=
  mkBoard (canvasRef b) (canvas b) (drawHistory b) (historyPointer b) (shouldDraw b)
          (lastPos b) (isDrawing b) (actionMenuItem b) (devicePixelRatio b)
          (rectWidth b) (rectHeight b) (emitted b) v (calls b).

Definition set_calls (v : list Call) (b : Board) : Board :=
  mkBoard (canvasRef b) (canvas b) (drawHistory b) (historyPointer b) (shouldDraw b)
          (lastPos b) (isDrawing b) (actionMenuItem b) (devicePixelRatio b)
          (rectWidth b) (rectHeight b) (emitted b) (downloads b) v.

(* ================================================================== *)
(** * Handlers as state transformers that may throw

    A handler runs to completion on the single event loop.  When it throws,
    what it did before stays done, so a thrown outcome carries the board as
    it was at the throw. *)

Inductive Outcome (A : Type) : Type :=
| Ok (a : A) (b : Board)
| Throw (e : Js.error) (b : Board).

Arguments Ok {A} a b.
Arguments Throw {A} e b.

Definition M (A : Type) : Type := Board -> Outcome A.

Definition ret {A : Type} (a : A) : M A := fun b => Ok a b.

Definition bind {A B : Type} (m : M A) (k : A -> M B) : M B :=
  fun b => match m b with
           | Ok a b' => k a b'
           | Throw e b' => Throw e b'
           end.

Definition throw {A : Type} (e : Js.error) : M A := fun b => Throw e b.

Definition read {A : Type} (f : Board -> A) : M A := fun b => Ok (f b) b.

Definition update (f : Board -> Board) : M unit := fun b => Ok tt (f b).

(** The board an outcome leaves behind, thrown or not. *)
Definition final {A : Type} (o : Outcome A) : Board :=
  match o with
  | Ok _ b => b
  | Throw _ b => b
  end.

Definition succeeded {A : Type} (o : Outcome A) : bool :=
  match o with
  | Ok _ _ => true
  | Throw _ _ => false
  end.

Declare Scope board_scope.
Delimit Scope board_scope with board.
Notation "x <- c ;; k" := (bind c (fun x => k))
  (at level 61, c at next level, right associativity) : board_scope.
Notation "c ;; k" := (bind c (fun _ => k))
  (at level 61, right associativity) : board_scope.
Local Open Scope board_scope.

(** A call on the canvas or its context: logged, then performed. *)
Definition ctx (c : Call) (f : Canvas -> Canvas) : M unit :=
  update (fun b => set_calls (calls b ++ [c]) (set_canvas (f (canvas b)) b)).

Definition emit (m : StrokeMessage) : M unit :=
  update (fun b => set_emitted (emitted b ++ [m]) b).

(* ================================================================== *)
(** * The component *)

Section Browser.

(** The browser's parser of CSS colours: whether a string is one. *)
Variable parses_as_color : string -> bool.

(** [drawSmoothLine(context, x1, y1, x2, y2)] *)
Definition drawSmoothLine (x1 y1 x2 y2 : float) : M unit :=
  ctx CBeginPath Canvas2D.beginPath ;;
  ctx (CMoveTo x1 y1) (Canvas2D.moveTo x1 y1) ;;
  let cp1x := (x1 + (x2 - x1) * 0.3)%float in
  let cp1y := (y1 + (y2 - y1) * 0.3)%float in
  let cp2x := (x1 + (x2 - x1) * 0.7)%float in
  let cp2y := (y1 + (y2 - y1) * 0.7)%float in
  ctx (CBezierCurveTo cp1x cp1y cp2x cp2y x2 y2)
      (Canvas2D.bezierCurveTo cp1x cp1y cp2x cp2y x2 y2) ;;
  ctx CStroke Canvas2D.stroke.

(** [setupHighResCanvas(canvas)]; the context it returns is the canvas's
    one 2D context, which the board holds with the canvas. *)
Definition setupHighResCanvas : M unit :=
  dpr <- read (fun b => Js.or_else (devicePixelRatio b) 1%float) ;;
  rw <- read rectWidth ;;
  rh <- read rectHeight ;;
  ctx (CSetWidth (rw * dpr)%float) (Canvas2D.set_width (rw * dpr)%float) ;;
  ctx (CSetHeight (rh * dpr)%float) (Canvas2D.set_height (rh * dpr)%float) ;;
  ctx (CScale dpr dpr) (Canvas2D.scale dpr dpr) ;;
  ctx (CSetLineCap CapRound) (Canvas2D.set_lineCap CapRound) ;;
  ctx (CSetLineJoin JoinRound) (Canvas2D.set_lineJoin JoinRound).

(** The effect on [[actionMenuItem, dispatch]], run with the command [a] of
    the render it belongs to. *)
Definition actionEffect (a : option Action) : M unit :=
  mounted <- read canvasRef ;;
  if negb mounted then ret tt else
  setupHighResCanvas ;;
  match a with
  | Some DOWNLOAD =>
      url <- read (fun b => Canvas2D.toDataURL "image/png" (canvas b)) ;;
      ctx (CToDataURL "image/png") (fun c => c) ;;
      update (fun b => set_downloads (downloads b ++ [("drawing.png"%string, url)]) b)
  | Some UNDO | Some REDO =>
      p <- read historyPointer ;;
      h <- read drawHistory ;;
      let newPointer :=
        match a with
        | Some UNDO => Z.max 0 (p - 1)
        | _ => Z.min (Js.length h - 1) (p + 1)
        end in
      update (set_historyPointer newPointer) ;;
      h' <- read drawHistory ;;
      match Js.index h' newPointer with
      | Some imageData =>
          ctx (CPutImageData imageData 0 0) (Canvas2D.putImageData imageData 0 0)
      | None =>
          (* putImageData(undefined, 0, 0): not an ImageData *)
          throw Js.TypeError
      end
  | None => ret tt
  end ;;
  update (actionItemClick None).

(** [changeConfig(color, size)] of the style effect. *)
Definition changeConfig (color : string) (size : float) : M unit :=
  ctx (CSetStrokeStyle color)
      (Canvas2D.set_strokeStyle parses_as_color color) ;;
  ctx (CSetLineWidth size) (Canvas2D.set_lineWidth size) ;;
  ctx (CSetLineCap CapRound) (Canvas2D.set_lineCap CapRound) ;;
  ctx (CSetLineJoin JoinRound) (Canvas2D.set_lineJoin JoinRound).

(** The socket's [changeConfig] handler. *)
Definition handleChangeConfig (config : ConfigMessage) : M unit :=
  changeConfig (color config) (size config).

(** The effect on [[color, size]]: applies the style of the style source
    and (re)subscribes [handleChangeConfig]. *)
Definition styleEffect (color : string) (size : float) : M unit :=
  mounted <- read canvasRef ;;
  if negb mounted then ret tt else
  changeConfig color size.

(** [resizeCanvas()], the window's [resize] listener. *)
Definition resizeCanvas : M unit :=
  dpr <- read (fun b => Js.or_else (devicePixelRatio b) 1%float) ;;
  rw <- read rectWidth ;;
  rh <- read rectHeight ;;
  ctx (CSetWidth (rw * dpr)%float) (Canvas2D.set_width (rw * dpr)%float) ;;
  ctx (CSetHeight (rh * dpr)%float) (Canvas2D.set_height (rh * dpr)%float) ;;
  ctx (CScale dpr dpr) (Canvas2D.scale dpr dpr) ;;
  ctx (CSetLineCap CapRound) (Canvas2D.set_lineCap CapRound) ;;
  ctx (CSetLineJoin JoinRound) (Canvas2D.set_lineJoin JoinRound).

(** The layout effect, run once: sizes the canvas and installs the
    listeners below. *)
Definition layoutEffect : M unit :=
  mounted <- read canvasRef ;;
  if negb mounted then ret tt else
  resizeCanvas.

(** [e.touches ? e.touches[0] : e]; a touch list is an object, hence
    truthy even when empty, and its missing first element is [undefined]. *)
Definition position (e : PointerEvent) : option Point :=
  match e with
  | MouseEvent x y => Some (mkPoint x y)
  | TouchEvent touches => hd_error touches
  end.

(** Reading [pos.clientX] and [pos.clientY]: a [TypeError] on [undefined]. *)
Definition client (pos : option Point) : M Point :=
  match pos with
  | Some p => ret p
  | None => throw Js.TypeError
  end.

Definition handleDrawStart (e : PointerEvent) : M unit :=
  let pos := position e in
  update (set_shouldDraw true) ;;
  p <- client pos ;;
  update (set_lastPos p) ;;
  update (setIsDrawing true) ;;
  ctx CBeginPath Canvas2D.beginPath ;;
  ctx (CMoveTo (px p) (py p)) (Canvas2D.moveTo (px p) (py p)) ;;
  emit (BeginPath p).

Definition handleDrawMove (e : PointerEvent) : M unit :=
  active <- read shouldDraw ;;
  if negb active then ret tt else
  let pos := position e in
  last <- read lastPos ;;
  p <- client pos ;;
  drawSmoothLine (px last) (py last) (px p) (py p) ;;
  update (set_lastPos p) ;;
  emit (DrawLine p).

Definition handleDrawEnd : M unit :=
  active <- read shouldDraw ;;
  if negb active then ret tt else
  update (set_shouldDraw false) ;;
  update (setIsDrawing false) ;;
  w <- read (fun b => width (canvas b)) ;;
  h <- read (fun b => height (canvas b)) ;;
  captured <- read (fun b => Canvas2D.getImageData 0 0 w h (canvas b)) ;;
  match captured with
  | None =>
      (* getImageData(0, 0, canvas.width, canvas.height) on a canvas
         without pixels *)
      throw Js.IndexSizeError
  | Some imageData =>
      ctx (CGetImageData 0 0 w h) (fun c => c) ;;
      update (fun b => set_drawHistory (drawHistory b ++ [imageData]) b) ;;
      update (fun b => set_historyPointer (Js.length (drawHistory b) - 1) b)
  end.

(** The socket's [beginPath] and [drawLine] handlers. *)
Definition onBeginPath (path : Point) : M unit :=
  ctx CBeginPath Canvas2D.beginPath ;;
  ctx (CMoveTo (px path) (py path)) (Canvas2D.moveTo (px path) (py path)).

Definition onDrawLine (path : Point) : M unit :=
  ctx (CLineTo (px path) (py path)) (Canvas2D.lineTo (px path) (py path)) ;;
  ctx CStroke Canvas2D.stroke.

(* ================================================================== *)
(** * Events *)

(** What can happen to a mounted board.  A menu click stores a command;
    the action effect runs for it and clears it, and the cleared command,
    being a change of [actionMenuItem] again, runs the effect once more. *)
Inductive Event : Type :=
| EvStart (e : PointerEvent)         (* mousedown, touchstart *)
| EvMove (e : PointerEvent)          (* mousemove, touchmove *)
| EvEnd                              (* mouseup, mouseout, touchend *)
| EvResize (dpr w h : float)         (* the window's resize *)
| EvAction (a : Action)              (* the dispatcher delivers a command *)
| EvStyle (color : string) (size : float) (* the style source changes *)
| EvBeginPath (p : Point)            (* socket: beginPath *)
| EvDrawLine (p : Point)             (* socket: drawLine *)
| EvChangeConfig (config : ConfigMessage). (* socket: changeConfig *)

(** The renders that follow a change of [actionMenuItem] to [a]: the
    effect runs with [a]; unless [a] was [null] already, the [null] it
    dispatches is a further change, and the effect runs with [null]. *)
Definition actionChanged (a : option Action) : M unit :=
  actionEffect a ;;
  match a with
  | Some _ => actionEffect None
  | None => ret tt
  end.

Definition deliver (ev : Event) : M unit :=
  match ev with
  | EvStart e => handleDrawStart e
  | EvMove e => handleDrawMove e
  | EvEnd => handleDrawEnd
  | EvResize dpr w h => update (set_layout dpr w h) ;; resizeCanvas
  | EvAction a => update (actionItemClick (Some a)) ;; actionChanged (Some a)
  | EvStyle color size => styleEffect color size
  | EvBeginPath p => onBeginPath p
  | EvDrawLine p => onDrawLine p
  | EvChangeConfig config => handleChangeConfig config
  end.

Fixpoint run (evs : list Event) : M unit :=
  match evs with
  | [] => ret tt
  | ev :: rest => deliver ev ;; run rest
  end.

(** The board as React creates it, the canvas attached to [canvasRef],
    under a window of the given pixel ratio and canvas box. *)
Definition created (dpr w h : float) : Board :=
  mkBoard true Canvas2D.fresh [] 0 false (mkPoint 0 0) false None dpr w h [] [] [].

(** Mounting runs the layout effect, then the two effects, with the
    store's command ([null]) and the style of the selected tool. *)
Definition mount (color : string) (size : float) : M unit :=
  layoutEffect ;;
  a <- read actionMenuItem ;;
  actionChanged a ;;
  styleEffect color size.

(** The board once mounted (mounting a created board never throws, see
    [mount_ok]). *)
Definition mounted (dpr w h : float) (color : string) (size : float) : Board :=
  final (mount color size (created dpr w h)).

(** A board is reachable when some events lead to it from the mounted
    board. *)
Definition reachable (b : Board) : Prop :=
  exists dpr w h color size evs,
    run evs (mounted dpr w h color size) = Ok tt b.

(* ================================================================== *)
(** * Derived notions used in the statements *)

(** ** What sizing the canvas leaves behind *)

Definition ratio (b : Board) : float :=
  Js.or_else (devicePixelRatio b) 1%float.

Definition sizing_calls (b : Board) : list Call :=
  [CSetWidth (rectWidth b * ratio b); CSetHeight (rectHeight b * ratio b);
   CScale (ratio b) (ratio b); CSetLineCap CapRound; CSetLineJoin JoinRound].

(** A blank surface of the window's size, the context in its default
    state but for the one scale and the round caps and joins. *)
Definition sized_canvas (b : Board) : Canvas :=
  mkCanvas (Canvas2D.dimension (rectWidth b * ratio b) 300)
           (Canvas2D.dimension (rectHeight b * ratio b) 150)
           [] [(ratio b, ratio b)] "#000000"%string 1%float
           CapRound JoinRound [].

Definition sized (b : Board) : Board :=
  set_calls (calls b ++ sizing_calls b) (set_canvas (sized_canvas b) b).

(** ** What the branches of the action effect leave behind *)

Definition newPointer (a : Action) (b : Board) : Z :=
  match a with
  | UNDO => Z.max 0 (historyPointer b - 1)
  | _ => Z.min (Js.length (drawHistory b) - 1) (historyPointer b + 1)
  end.

Definition painted (img : ImageData) (b : Board) : Board :=
  set_calls (calls b ++ [CPutImageData img 0 0])
            (set_canvas (Canvas2D.putImageData img 0 0 (canvas b)) b).

Definition exported (b : Board) : Board :=
  set_downloads
    (downloads b ++
       [("drawing.png"%string, Canvas2D.toDataURL "image/png" (canvas b))])
    (set_calls (calls b ++ [CToDataURL "image/png"]) b).

(** ** Classes of events *)

(** An event that starts a gesture. *)
Definition is_start (ev : Event) : bool :=
  match ev with
  | EvStart _ => true
  | _ => false
  end.

(** An event whose handler writes to the history. *)
Definition touches_history (ev : Event) : bool :=
  match ev with
  | EvEnd | EvAction _ => true
  | _ => false
  end.

(** Events that neither set the pen nor size the canvas. *)
Definition keeps_pen (ev : Event) : bool :=
  match ev with
  | EvStart _ | EvMove _ | EvEnd | EvBeginPath _ | EvDrawLine _ => true
  | _ => false
  end.

(** A stroke in colour [c] and width [s]. *)
Definition inked_with (c : string) (s : float) (i : Ink) : Prop :=
  match i with
  | InkStroke _ pen _ => pen_color pen = c /\ pen_width pen = s
  | InkPut _ _ _ _ _ _ _ => False
  end.

(** ** Well-formed histories *)

(** The invariant of a history that holds snapshots: the pointer indexes
    one of them. *)
Definition history_ok (b : Board) : Prop :=
  0 <= historyPointer b < Js.length (drawHistory b).

(** What every reachable board satisfies. *)
Definition board_ok (b : Board) : Prop :=
  canvasRef b = true /\ (drawHistory b = [] \/ history_ok b).

(** ** A sample session *)

(** A board with two recorded strokes, the second one undone. *)
Definition two_strokes : list Event :=
  [EvStart (MouseEvent 0 0); EvMove (MouseEvent 10 0); EvEnd;
   EvStart (TouchEvent [mkPoint 5 5]); EvMove (TouchEvent [mkPoint 6 9]); EvEnd;
   EvAction UNDO].

Definition sample_board : Board :=
  final (run two_strokes (mounted 2 800 600 "#112233" 3)).

(* ================================================================== *)
(** * Notions for whole gestures and sessions *)

(** The [cursor] style the canvas is rendered with. *)
Definition cursor (b : Board) : string :=
  if isDrawing b then "grabbing"%string else "grab"%string.

(** A stroke message arriving at a peer. *)
Definition receive (m : StrokeMessage) : Event :=
  match m with
  | BeginPath p => EvBeginPath p
  | DrawLine p => EvDrawLine p
  end.

(** A mouse gesture: a press at [p0], then moves through [ps]. *)
Definition press (p : Point) : Event := EvStart (MouseEvent (px p) (py p)).
Definition move (p : Point) : Event := EvMove (MouseEvent (px p) (py p)).
Definition gesture (p0 : Point) (ps : list Point) : list Event :=
  press p0 :: map move ps.

(** The cubic [drawSmoothLine] lays between two points, with the control
    points as it computes them. *)
Definition smooth (a b : Point) : Segment :=
  SegCurve a
    (mkPoint (px a + (px b - px a) * 0.3) (py a + (py b - py a) * 0.3))
    (mkPoint (px a + (px b - px a) * 0.7) (py a + (py b - py a) * 0.7))
    b.

(** One cubic per move, each starting where the one before ended. *)
Fixpoint curves (p0 : Point) (ps : list Point) : list (list Segment) :=
  match ps with
  | [] => []
  | p :: rest => [smooth p0 p] :: curves p rest
  end.

(** The straight lines through [p0] and [ps], in order. *)
Fixpoint polyline (p0 : Point) (ps : list Point) : list Segment :=
  match ps with
  | [] => []
  | p :: rest => SegLine p0 p :: polyline p rest
  end.

(** The segments a drawing operation inked. *)
Definition ink_segments (i : Ink) : list Segment :=
  match i with
  | InkStroke p _ _ => segments p
  | InkPut _ _ _ _ _ _ _ => []
  end.

(** Local pointer input that can send something. *)
Definition is_pointer_input (ev : Event) : bool :=
  match ev with
  | EvStart _ | EvMove _ => true
  | _ => false
  end.

Definition is_end (ev : Event) : bool :=
  match ev with
  | EvEnd => true
  | _ => false
  end.

(** A received stroke message. *)
Definition is_remote_stroke (ev : Event) : bool :=
  match ev with
  | EvBeginPath _ | EvDrawLine _ => true
  | _ => false
  end.

(** The canvas has the size of its box in device pixels, one scale by the
    pixel ratio, and round caps and joins. *)
Definition sized_for_window (b : Board) : Prop :=
  width (canvas b) = Canvas2D.dimension (rectWidth b * ratio b) 300 /\
  height (canvas b) = Canvas2D.dimension (rectHeight b * ratio b) 150 /\
  transform (canvas b) = [(ratio b, ratio b)] /\
  lineCap (canvas b) = CapRound /\
  lineJoin (canvas b) = JoinRound.

(** The sample session with a further gesture under way. *)
Definition drawing_board : Board :=
  final (run (gesture (mkPoint 1 2) [mkPoint 3 4]) sample_board).

(* ================================================================== *)
(** * Auxiliary facts *)

Arguments Js.index {A} a i : simpl never.
Arguments Js.length {A} a : simpl never.
Arguments Js.or_else x d : simpl never.
Arguments Canvas2D.dimension v default : simpl never.
Arguments Z.max n m : simpl never.
Arguments Z.min n m : simpl never.

(** Runs the handlers of a goal as far as the board's shape allows,
    reducing setters and projections on the way. *)
Ltac exec :=
  cbv beta iota zeta delta
    [drawSmoothLine setupHighResCanvas resizeCanvas actionEffect actionChanged
     changeConfig handleChangeConfig styleEffect layoutEffect
     position client handleDrawStart handleDrawMove handleDrawEnd
     onBeginPath onDrawLine deliver mount created mounted
     bind ret read update throw ctx emit final succeeded
     set_canvas set_drawHistory set_historyPointer set_shouldDraw set_lastPos
     setIsDrawing actionItemClick set_layout set_emitted set_downloads set_calls
     canvasRef canvas drawHistory historyPointer shouldDraw lastPos isDrawing
     actionMenuItem devicePixelRatio rectWidth rectHeight emitted downloads calls
     Canvas2D.set_width Canvas2D.set_height Canvas2D.scale
     Canvas2D.set_strokeStyle Canvas2D.set_lineWidth Canvas2D.set_lineCap
     Canvas2D.set_lineJoin Canvas2D.set_path Canvas2D.set_bitmap
     Canvas2D.beginPath Canvas2D.add_to_path Canvas2D.moveTo Canvas2D.lineTo
     Canvas2D.bezierCurveTo Canvas2D.pen Canvas2D.stroke Canvas2D.getImageData
     Canvas2D.putImageData Canvas2D.toDataURL
     width height bitmap transform strokeStyle lineWidth lineCap lineJoin path
     px py color size negb hd_error
     ratio sizing_calls sized_canvas sized newPointer painted exported].

(** Case analysis on the tests a handler makes on the board's own fields. *)
Ltac branch :=
  repeat (exec;
          match goal with
          | |- context [if ?c then _ else _] => is_var c; destruct c
          | |- context [match ?x with _ => _ end] => is_var x; destruct x
          | |- context [if (?w =? 0) || ?h then _ else _] =>
              destruct ((w =? 0) || h)
          end);
  exec.

(** binary64 multiplication is commutative. *)
Lemma SFmul_comm (prec emax : Z) (x y : spec_float) :
  SFmul prec emax x y = SFmul prec emax y x.
Proof.
  destruct x as [sx|sx| |sx mx ex], y as [sy|sy| |sy my ey]; cbn;
    try reflexivity; try (now rewrite xorb_comm).
  now rewrite xorb_comm, Pos.mul_comm, Z.add_comm.
Qed.

Lemma float_mul_comm (x y : float) : (x * y)%float = (y * x)%float.
Proof. apply Prim2SF_inj. rewrite !mul_spec. apply SFmul_comm. Qed.

Lemma app4 {A : Type} (l : list A) (a b c d : A) :
  (((l ++ [a]) ++ [b]) ++ [c]) ++ [d] = l ++ [a; b; c; d].
Proof. now rewrite <- !app_assoc. Qed.

Lemma js_index_in_range {A : Type} (a : list A) (i : Z) :
  0 <= i < Js.length a -> exists x, Js.index a i = Some x.
Proof.
  unfold Js.index, Js.length. intros [Hlo Hhi].
  destruct (Z.ltb_spec i 0) as [Hneg|_]; [lia|].
  destruct (nth_error a (Z.to_nat i)) as [x|] eqn:E; [now exists x|].
  apply nth_error_None in E. lia.
Qed.

Lemma setupHighResCanvas_sized (b : Board) :
  setupHighResCanvas b = Ok tt (sized b).
Proof.
  destruct b. exec. now rewrite <- !app_assoc.
Qed.

Lemma actionEffect_unmounted (a : option Action) (b : Board) :
  canvasRef b = false -> actionEffect a b = Ok tt b.
Proof.
  intros H. unfold actionEffect, bind, read. rewrite H. reflexivity.
Qed.

Lemma actionEffect_null (b : Board) :
  canvasRef b = true ->
  actionEffect None b = Ok tt (actionItemClick None (sized b)).
Proof.
  destruct b. cbn [canvasRef]. intros ->. exec. now rewrite <- !app_assoc.
Qed.

Lemma actionEffect_download (b : Board) :
  canvasRef b = true ->
  actionEffect (Some DOWNLOAD) b =
    Ok tt (actionItemClick None (exported (sized b))).
Proof.
  destruct b. cbn [canvasRef]. intros ->. exec. now rewrite <- !app_assoc.
Qed.

Lemma actionEffect_history (a : Action) (b : Board) :
  canvasRef b = true -> a <> DOWNLOAD ->
  actionEffect (Some a) b =
    match Js.index (drawHistory b) (newPointer a b) with
    | Some img =>
        Ok tt (actionItemClick None
                 (painted img (set_historyPointer (newPointer a b) (sized b))))
    | None => Throw Js.TypeError (set_historyPointer (newPointer a b) (sized b))
    end.
Proof.
  destruct b. cbn [canvasRef]. intros -> Ha.
  destruct a; [congruence| |]; exec;
    match goal with
    | |- context [Js.index ?h ?i] => destruct (Js.index h i)
    end; now rewrite <- !app_assoc.
Qed.

(** The effect touches the canvas, the pointer, the store and the
    downloads, and nothing else. *)
Lemma actionEffect_frame (a : option Action) (b : Board) :
  drawHistory (final (actionEffect a b)) = drawHistory b /\
  shouldDraw (final (actionEffect a b)) = shouldDraw b /\
  canvasRef (final (actionEffect a b)) = canvasRef b /\
  lastPos (final (actionEffect a b)) = lastPos b /\
  emitted (final (actionEffect a b)) = emitted b.
Proof.
  destruct (canvasRef b) eqn:H.
  - destruct a as [a|].
    + destruct a.
      * rewrite actionEffect_download by assumption. cbn. now rewrite H.
      * rewrite actionEffect_history by (assumption || discriminate).
        destruct (Js.index _ _); cbn; now rewrite H.
      * rewrite actionEffect_history by (assumption || discriminate).
        destruct (Js.index _ _); cbn; now rewrite H.
    + rewrite actionEffect_null by assumption. cbn. now rewrite H.
  - rewrite actionEffect_unmounted by assumption. cbn. now rewrite H.
Qed.

Lemma actionChanged_frame (a : option Action) (b : Board) :
  drawHistory (final (actionChanged a b)) = drawHistory b /\
  shouldDraw (final (actionChanged a b)) = shouldDraw b /\
  canvasRef (final (actionChanged a b)) = canvasRef b /\
  lastPos (final (actionChanged a b)) = lastPos b /\
  emitted (final (actionChanged a b)) = emitted b.
Proof.
  unfold actionChanged, bind.
  pose proof (actionEffect_frame a b) as F.
  destruct (actionEffect a b) as [[] b1|e b1]; cbn in F; [|exact F].
  destruct a as [a|]; [|exact F].
  pose proof (actionEffect_frame None b1) as F1.
  destruct F as (? & ? & ? & ? & ?), F1 as (? & ? & ? & ? & ?).
  repeat split; congruence.
Qed.

(* ================================================================== *)
(** * Stroke rendering *)

(** C6. Whatever the endpoints, [drawSmoothLine] issues [beginPath],
    [moveTo] the first endpoint, one [bezierCurveTo] and [stroke]: a single
    cubic from [(x1, y1)] to [(x2, y2)] whose control points are
    [(x1 + 0.3 * (x2 - x1), y1 + 0.3 * (y2 - y1))] and
    [(x1 + 0.7 * (x2 - x1), y1 + 0.7 * (y2 - y1))], computed in binary64,
    and which is inked with the current pen.  For the endpoints [(0, 0)]
    and [(10, 0)] the control points are [(3, 0)] and [(7, 0)]. *)
Theorem drawSmoothLine_single_cubic :
  (forall (b : Board) (x1 y1 x2 y2 : float),
     exists b',
       drawSmoothLine x1 y1 x2 y2 b = Ok tt b' /\
       calls b' =
         calls b ++
           [CBeginPath; CMoveTo x1 y1;
            CBezierCurveTo (x1 + 0.3 * (x2 - x1)) (y1 + 0.3 * (y2 - y1))
                           (x1 + 0.7 * (x2 - x1)) (y1 + 0.7 * (y2 - y1))
                           x2 y2;
            CStroke] /\
       segments (path (canvas b')) =
         [SegCurve (mkPoint x1 y1)
                   (mkPoint (x1 + 0.3 * (x2 - x1)) (y1 + 0.3 * (y2 - y1)))
                   (mkPoint (x1 + 0.7 * (x2 - x1)) (y1 + 0.7 * (y2 - y1)))
                   (mkPoint x2 y2)] /\
       bitmap (canvas b') =
         bitmap (canvas b) ++
           [InkStroke (path (canvas b')) (Canvas2D.pen (canvas b))
                      (transform (canvas b))] /\
       emitted b' = emitted b) /\
  (forall b : Board,
     exists pen tf,
       bitmap (canvas (final (drawSmoothLine 0 0 10 0 b))) =
         bitmap (canvas b) ++
           [InkStroke
              [(tf, PMove (mkPoint 0 0));
               (tf, PCurve (mkPoint 3 0) (mkPoint 7 0) (mkPoint 10 0))]
              pen tf]).
Proof.
  split.
  - intros b x1 y1 x2 y2.
    rewrite (float_mul_comm 0.3 (x2 - x1)), (float_mul_comm 0.3 (y2 - y1)),
      (float_mul_comm 0.7 (x2 - x1)), (float_mul_comm 0.7 (y2 - y1)).
    eexists. split; [exec; reflexivity|]. cbn.
    split; [apply app4|]. split; [reflexivity|]. split; reflexivity.
  - intros b. exists (Canvas2D.pen (canvas b)), (transform (canvas b)).
    exec. reflexivity.
Qed.

(* ================================================================== *)
(** * Remote replay *)

(** C7. A received [BeginPath p] followed by a received [DrawLine q]
    begins a path at [p], and the [DrawLine] handler itself calls
    [lineTo] and then [stroke]: after the two handlers alone the surface
    holds a stroke whose only segment is the line from [p] to [q], in the
    current pen.  [BeginPath {5, 5}] then [DrawLine {15, 5}] inks the
    segment from [(5, 5)] to [(15, 5)]. *)
Theorem remote_line_is_stroked_at_once :
  (forall (b : Board) (p q : Point),
     exists b1 b2,
       onBeginPath p b = Ok tt b1 /\
       path (canvas b1) = [(transform (canvas b), PMove p)] /\
       onDrawLine q b1 = Ok tt b2 /\
       calls b2 =
         calls b ++
           [CBeginPath; CMoveTo (px p) (py p); CLineTo (px q) (py q); CStroke] /\
       (exists done, calls (final (onDrawLine q b1)) = done ++ [CStroke]) /\
       bitmap (canvas b2) =
         bitmap (canvas b) ++
           [InkStroke (path (canvas b2)) (Canvas2D.pen (canvas b))
                      (transform (canvas b))] /\
       segments (path (canvas b2)) = [SegLine p q]) /\
  (forall b : Board,
     exists ink,
       bitmap (canvas (final (run [EvBeginPath (mkPoint 5 5);
                                   EvDrawLine (mkPoint 15 5)] b))) =
         bitmap (canvas b) ++ [InkStroke ink (Canvas2D.pen (canvas b))
                                         (transform (canvas b))] /\
       segments ink = [SegLine (mkPoint 5 5) (mkPoint 15 5)]).
Proof.
  split.
  - intros b [x y] [x' y']. do 2 eexists.
    split; [exec; reflexivity|]. split; [reflexivity|].
    split; [exec; reflexivity|]. cbn.
    split; [apply app4|].
    split; [eexists; exec; reflexivity|].
    split; reflexivity.
  - intros b. eexists. cbn [run]. exec. split; reflexivity.
Qed.

(** C8. The handlers of received stroke messages leave the history alone:
    [drawHistory] and [historyPointer] are as before, and so is everything
    but the canvas's current path and pixels (and the log of calls). *)
Theorem remote_strokes_bypass_history :
  forall (b : Board) (m : StrokeMessage),
    exists b',
      (match m with
       | BeginPath p => onBeginPath p
       | DrawLine p => onDrawLine p
       end) b = Ok tt b' /\
      drawHistory b' = drawHistory b /\
      historyPointer b' = historyPointer b /\
      shouldDraw b' = shouldDraw b /\
      lastPos b' = lastPos b /\
      isDrawing b' = isDrawing b /\
      actionMenuItem b' = actionMenuItem b /\
      emitted b' = emitted b /\
      downloads b' = downloads b /\
      canvasRef b' = canvasRef b /\
      width (canvas b') = width (canvas b) /\
      height (canvas b') = height (canvas b) /\
      transform (canvas b') = transform (canvas b) /\
      Canvas2D.pen (canvas b') = Canvas2D.pen (canvas b).
Proof.
  intros b [p|p]; eexists; (split; [exec; reflexivity|]); cbn; repeat split.
Qed.

(* ================================================================== *)
(** * What the handlers leave alone *)

Lemma deliver_history_frame (ev : Event) (b : Board) :
  touches_history ev = false ->
  drawHistory (final (deliver ev b)) = drawHistory b /\
  historyPointer (final (deliver ev b)) = historyPointer b /\
  canvasRef (final (deliver ev b)) = canvasRef b.
Proof.
  intros Hev. destruct b, ev; try discriminate Hev; branch; repeat split.
Qed.

Lemma deliver_gesture_frame (ev : Event) (b : Board) :
  is_start ev = false -> shouldDraw b = false ->
  shouldDraw (final (deliver ev b)) = false.
Proof.
  intros Hev Hidle. destruct ev as [e|e| |dpr w h|a|c s|p|p|cfg];
    try discriminate Hev.
  4: { change (deliver (EvAction a) b)
         with (actionChanged (Some a) (actionItemClick (Some a) b)).
       destruct (actionChanged_frame (Some a) (actionItemClick (Some a) b))
         as (_ & -> & _). destruct b; exact Hidle. }
  all: destruct b; cbn [shouldDraw] in Hidle; subst; branch; reflexivity.
Qed.

Lemma run_keeps_idle (evs : list Event) :
  forall b, forallb (fun ev => negb (is_start ev)) evs = true ->
            shouldDraw b = false ->
            shouldDraw (final (run evs b)) = false.
Proof.
  induction evs as [|ev evs IH]; intros b Hevs Hidle; [exact Hidle|].
  cbn in Hevs. apply andb_true_iff in Hevs as [Hev Hevs].
  apply negb_true_iff in Hev.
  pose proof (deliver_gesture_frame ev b Hev Hidle) as Hstep.
  cbn [run]. unfold bind. destruct (deliver ev b) as [[] b1|e b1]; cbn in *.
  - now apply IH.
  - exact Hstep.
Qed.

Lemma mount_ok (dpr w h : float) (c : string) (s : float) :
  succeeded (mount c s (created dpr w h)) = true.
Proof. reflexivity. Qed.

Lemma mounted_idle (dpr w h : float) (c : string) (s : float) :
  shouldDraw (mounted dpr w h c s) = false.
Proof. reflexivity. Qed.

(* ================================================================== *)
(** * Gestures *)

(** C5. While no gesture is active ([shouldDraw] is false)
    [handleDrawMove] returns at once: the board afterwards is the board
    before, so no call was made on the canvas, nothing was emitted, and
    [lastPos], the history and the pixels are what they were.  No gesture
    is active on a board that has seen no start yet, nor after
    [handleDrawEnd]. *)
Theorem move_outside_gesture_is_noop :
  (forall (b : Board) (e : PointerEvent),
     shouldDraw b = false -> handleDrawMove e b = Ok tt b) /\
  (forall (dpr w h : float) (c : string) (s : float) (evs : list Event)
          (e : PointerEvent),
     forallb (fun ev => negb (is_start ev)) evs = true ->
     handleDrawMove e (final (run evs (mounted dpr w h c s))) =
       Ok tt (final (run evs (mounted dpr w h c s)))) /\
  (forall (b : Board) (e : PointerEvent),
     handleDrawMove e (final (handleDrawEnd b)) = Ok tt (final (handleDrawEnd b))).
Proof.
  assert (Hnoop : forall b e, shouldDraw b = false -> handleDrawMove e b = Ok tt b).
  { intros b e Hidle. unfold handleDrawMove, bind, read. now rewrite Hidle. }
  split; [exact Hnoop|]. split.
  - intros dpr w h c s evs e Hevs. apply Hnoop.
    apply run_keeps_idle; [exact Hevs|apply mounted_idle].
  - intros b e. apply Hnoop. destruct b. branch; reflexivity.
Qed.

(* ================================================================== *)
(** * History *)

Lemma js_length_snoc {A : Type} (l : list A) (x : A) :
  Js.length (l ++ [x]) = Js.length l + 1.
Proof. unfold Js.length. rewrite length_app. cbn. lia. Qed.

Lemma js_length_nonneg {A : Type} (l : list A) : 0 <= Js.length l.
Proof. unfold Js.length. lia. Qed.

Lemma newPointer_in_range (a : Action) (b : Board) :
  history_ok b -> 0 <= newPointer a b < Js.length (drawHistory b).
Proof. unfold history_ok, newPointer. destruct a; lia. Qed.

Lemma newPointer_empty (a : Action) (b : Board) :
  drawHistory b = [] -> Js.index (drawHistory b) (newPointer a b) = None.
Proof.
  intros H. rewrite H. unfold Js.index.
  destruct (_ <? 0); [reflexivity|]. now destruct (Z.to_nat _).
Qed.

(** On a history that holds snapshots, undo and redo paint the snapshot
    at the new pointer and return. *)
Lemma actionEffect_paints (a : Action) (b : Board) :
  canvasRef b = true -> a <> DOWNLOAD -> history_ok b ->
  exists img,
    Js.index (drawHistory b) (newPointer a b) = Some img /\
    actionEffect (Some a) b =
      Ok tt (actionItemClick None
               (painted img (set_historyPointer (newPointer a b) (sized b)))).
Proof.
  intros Hm Ha Hok.
  destruct (js_index_in_range (drawHistory b) (newPointer a b)
              (newPointer_in_range a b Hok)) as [img Himg].
  exists img. split; [exact Himg|].
  rewrite actionEffect_history by assumption. now rewrite Himg.
Qed.

(** A delivered command on a board whose history is in order: both runs
    of the effect return, the history is as before and the pointer is the
    one the command computes. *)
Lemma deliver_action (a : Action) (b : Board) :
  canvasRef b = true -> history_ok b ->
  exists b',
    deliver (EvAction a) b = Ok tt b' /\
    drawHistory b' = drawHistory b /\
    historyPointer b' =
      match a with
      | DOWNLOAD => historyPointer b
      | _ => newPointer a b
      end /\
    canvasRef b' = true /\
    bitmap (canvas b') = [].
Proof.
  intros Hm Hok.
  change (deliver (EvAction a) b)
    with (actionChanged (Some a) (actionItemClick (Some a) b)).
  set (b0 := actionItemClick (Some a) b).
  assert (Hm0 : canvasRef b0 = true) by (destruct b; exact Hm).
  assert (Hok0 : history_ok b0) by (destruct b; exact Hok).
  assert (Hh : drawHistory b0 = drawHistory b) by now destruct b.
  assert (Hp : historyPointer b0 = historyPointer b) by now destruct b.
  assert (Hn : newPointer a b0 = newPointer a b) by now destruct b.
  clearbody b0. unfold actionChanged, bind.
  destruct a.
  - rewrite actionEffect_download by assumption.
    rewrite actionEffect_null by (destruct b0; exact Hm0).
    eexists. split; [reflexivity|]. destruct b0; cbn in *. now subst.
  - destruct (actionEffect_paints UNDO b0 Hm0 ltac:(discriminate) Hok0)
      as (img & _ & ->).
    rewrite actionEffect_null by (destruct b0; exact Hm0).
    eexists. split; [reflexivity|]. destruct b0; cbn in *. now subst.
  - destruct (actionEffect_paints REDO b0 Hm0 ltac:(discriminate) Hok0)
      as (img & _ & ->).
    rewrite actionEffect_null by (destruct b0; exact Hm0).
    eexists. split; [reflexivity|]. destruct b0; cbn in *. now subst.
Qed.

Lemma deliver_action_pointer (a : Action) (b : Board) :
  history_ok b ->
  0 <= match a with
       | DOWNLOAD => historyPointer b
       | _ => newPointer a b
       end < Js.length (drawHistory b).
Proof.
  intros Hok. destruct a; [exact Hok| |]; now apply newPointer_in_range.
Qed.

Lemma run_actions (acts : list Action) :
  forall b, canvasRef b = true -> history_ok b ->
    exists b',
      run (map EvAction acts) b = Ok tt b' /\
      drawHistory b' = drawHistory b /\
      history_ok b' /\
      canvasRef b' = true.
Proof.
  induction acts as [|a acts IH]; intros b Hm Hok.
  - exists b. split; [reflexivity|]. split; [reflexivity|]. now split.
  - destruct (deliver_action a b Hm Hok) as (b1 & Hrun & Hh & Hp & Hm1 & _).
    assert (Hok1 : history_ok b1).
    { unfold history_ok. rewrite Hh, Hp. now apply deliver_action_pointer. }
    destruct (IH b1 Hm1 Hok1) as (b2 & Hrun2 & Hh2 & Hok2 & Hm2).
    exists b2. cbn [map run]. unfold bind. rewrite Hrun.
    split; [exact Hrun2|]. split; [congruence|]. now split.
Qed.

Lemma deliver_board_ok (ev : Event) (b b' : Board) :
  board_ok b -> deliver ev b = Ok tt b' -> board_ok b'.
Proof.
  intros [Hm Hh] Hrun.
  destruct (touches_history ev) eqn:Hev.
  - destruct ev; try discriminate Hev.
    + (* the end of a gesture *)
      destruct b as [m [cw ch bm tf ss lw lc lj pa] h p active lp dr am d rw rh em dl cl].
      unfold board_ok, history_ok in *. cbn in Hm, Hh. subst m.
      revert Hrun. destruct active; exec.
      * destruct ((cw =? 0) || (ch =? 0)); [discriminate|].
        intros [= <-]; cbn.
        split; [reflexivity|]. right. rewrite js_length_snoc.
        pose proof (js_length_nonneg h). lia.
      * intros [= <-]; cbn. split; [reflexivity|exact Hh].
    + (* a command *)
      destruct Hh as [Hempty|Hok].
      * change (deliver (EvAction a) b)
          with (actionChanged (Some a) (actionItemClick (Some a) b)) in Hrun.
        destruct (actionChanged_frame (Some a) (actionItemClick (Some a) b))
          as (Fh & _ & Fm & _).
        rewrite Hrun in Fh, Fm. cbn in Fh, Fm.
        split; [rewrite Fm; now destruct b|].
        left. rewrite Fh. now destruct b.
      * destruct (deliver_action a b Hm Hok) as (b1 & Hrun1 & Fh & Fp & Fm & _).
        rewrite Hrun in Hrun1. injection Hrun1 as <-.
        split; [exact Fm|]. right. unfold history_ok. rewrite Fh, Fp.
        now apply deliver_action_pointer.
  - destruct (deliver_history_frame ev b Hev) as (Fh & Fp & Fm).
    rewrite Hrun in Fh, Fp, Fm. cbn in Fh, Fp, Fm.
    unfold board_ok, history_ok. rewrite Fh, Fp, Fm. now split.
Qed.

Lemma run_board_ok (evs : list Event) :
  forall b b', board_ok b -> run evs b = Ok tt b' -> board_ok b'.
Proof.
  induction evs as [|ev evs IH]; intros b b' Hok Hrun.
  - injection Hrun as <-. exact Hok.
  - cbn [run] in Hrun. unfold bind in Hrun.
    destruct (deliver ev b) as [[] b1|e b1] eqn:Hstep; [|discriminate Hrun].
    eapply IH; [|exact Hrun]. eapply deliver_board_ok; eassumption.
Qed.

Lemma mounted_board_ok (dpr w h : float) (c : string) (s : float) :
  board_ok (mounted dpr w h c s).
Proof. split; [reflexivity|now left]. Qed.

Lemma reachable_board_ok (b : Board) : reachable b -> board_ok b.
Proof.
  intros (dpr & w & h & c & s & evs & Hrun).
  eapply run_board_ok; [apply mounted_board_ok|exact Hrun].
Qed.

(** C1. On a reachable board whose history holds N >= 1 snapshots the
    pointer is within [0, N-1], and whatever sequence of commands is then
    delivered (undo and redo, and download as well), every one of them
    returns, the snapshots are the same sequence as before and the pointer
    is within [0, N-1] again. *)
Theorem pointer_stays_in_range :
  forall (b : Board) (acts : list Action),
    reachable b -> 1 <= Js.length (drawHistory b) ->
    0 <= historyPointer b <= Js.length (drawHistory b) - 1 /\
    exists b',
      run (map EvAction acts) b = Ok tt b' /\
      drawHistory b' = drawHistory b /\
      0 <= historyPointer b' <= Js.length (drawHistory b) - 1.
Proof.
  intros b acts Hreach HN.
  destruct (reachable_board_ok b Hreach) as [Hm [Hempty|Hok]].
  - rewrite Hempty in HN. unfold Js.length in HN. cbn in HN. lia.
  - split; [unfold history_ok in Hok; lia|].
    destruct (run_actions acts b Hm Hok) as (b' & Hrun & Hh & Hok' & _).
    exists b'. split; [exact Hrun|]. split; [exact Hh|].
    unfold history_ok in Hok'. rewrite Hh in Hok'. lia.
Qed.

(** One run of the effect for undo or redo.  On a mounted board whose
    history holds snapshots and whose pointer [p] indexes one of them, the
    run for undo returns with the pointer at [max 0 (p - 1)], the run for
    redo with the pointer at [min (length - 1) (p + 1)]; at [p = 0],
    respectively [p = length - 1], the pointer stays where it is.  Neither
    throws nor changes the snapshots, and the last call either makes on
    the canvas is [putImageData] of the snapshot at the new pointer.  (The
    run that follows for the cleared command sizes the canvas again.) *)
Theorem undo_redo_clamp_and_paint :
  forall b : Board,
    canvasRef b = true -> history_ok b ->
    (exists b' img,
       actionEffect (Some UNDO) b = Ok tt b' /\
       historyPointer b' = Z.max 0 (historyPointer b - 1) /\
       (historyPointer b = 0 -> historyPointer b' = 0) /\
       drawHistory b' = drawHistory b /\
       Js.index (drawHistory b') (historyPointer b') = Some img /\
       (exists before, calls b' = before ++ [CPutImageData img 0 0]) /\
       bitmap (canvas b') = [ink_of_image img 0 0]) /\
    (exists b' img,
       actionEffect (Some REDO) b = Ok tt b' /\
       historyPointer b' =
         Z.min (Js.length (drawHistory b) - 1) (historyPointer b + 1) /\
       (historyPointer b = Js.length (drawHistory b) - 1 ->
        historyPointer b' = historyPointer b) /\
       drawHistory b' = drawHistory b /\
       Js.index (drawHistory b') (historyPointer b') = Some img /\
       (exists before, calls b' = before ++ [CPutImageData img 0 0]) /\
       bitmap (canvas b') = [ink_of_image img 0 0]).
Proof.
  intros b Hm Hok. split.
  - destruct (actionEffect_paints UNDO b Hm ltac:(discriminate) Hok)
      as (img & Himg & Hrun).
    eexists. exists img. split; [exact Hrun|].
    destruct b as [m cv h p active lp dr am d rw rh em dl cl].
    unfold history_ok in Hok. cbn in Hok, Himg |- *.
    split; [reflexivity|]. split; [intros ->; reflexivity|].
    split; [reflexivity|]. split; [exact Himg|].
    split; [eexists; reflexivity|reflexivity].
  - destruct (actionEffect_paints REDO b Hm ltac:(discriminate) Hok)
      as (img & Himg & Hrun).
    eexists. exists img. split; [exact Hrun|].
    destruct b as [m cv h p active lp dr am d rw rh em dl cl].
    unfold history_ok in Hok. cbn in Hok, Himg |- *.
    split; [reflexivity|]. split; [intros ->; lia|].
    split; [reflexivity|]. split; [exact Himg|].
    split; [eexists; reflexivity|reflexivity].
Qed.

(** C4 fails on an empty history.  On a board that has just been mounted
    and holds no snapshot, a delivered undo or redo throws: the element
    read from the empty [drawHistory] is [undefined], and [putImageData]
    refuses it with a [TypeError].  The throw happens before the command
    is cleared, and redo has by then moved the pointer to [-1]. *)
Theorem undo_redo_on_empty_history_throw :
  (exists b',
     deliver (EvAction UNDO) (mounted 2 800 600 "#112233" 3)
       = Throw Js.TypeError b' /\
     drawHistory b' = [] /\ historyPointer b' = 0 /\
     actionMenuItem b' = Some UNDO) /\
  (exists b',
     deliver (EvAction REDO) (mounted 2 800 600 "#112233" 3)
       = Throw Js.TypeError b' /\
     drawHistory b' = [] /\ historyPointer b' = -1 /\
     actionMenuItem b' = Some REDO).
Proof.
  split; eexists; (split; [vm_compute; reflexivity|]); repeat split.
Qed.

(** The same on every mounted board without snapshots. *)
Lemma undo_redo_need_a_snapshot (a : Action) (b : Board) :
  canvasRef b = true -> drawHistory b = [] -> a <> DOWNLOAD ->
  exists b', actionEffect (Some a) b = Throw Js.TypeError b' /\
             actionMenuItem b' = actionMenuItem b.
Proof.
  intros Hm Hempty Ha. rewrite actionEffect_history by assumption.
  rewrite newPointer_empty by assumption.
  eexists. split; [reflexivity|]. now destruct b.
Qed.

(* ================================================================== *)
(** * Pen style *)

Lemma deliver_keeps_pen (ev : Event) (b : Board) :
  keeps_pen ev = true ->
  strokeStyle (canvas (final (deliver ev b))) = strokeStyle (canvas b) /\
  lineWidth (canvas (final (deliver ev b))) = lineWidth (canvas b) /\
  exists added,
    bitmap (canvas (final (deliver ev b))) = bitmap (canvas b) ++ added /\
    Forall (inked_with (strokeStyle (canvas b)) (lineWidth (canvas b))) added.
Proof.
  intros Hev.
  destruct b as [m [cw ch bm tf ss lw lc lj pa] h p active lp dr am d rw rh em dl cl].
  destruct ev; try discriminate Hev; branch;
    (split; [reflexivity|]); (split; [reflexivity|]);
    first [ exists []; split; [now rewrite app_nil_r|constructor]
          | eexists; split; [reflexivity|repeat constructor] ].
Qed.

Lemma run_keeps_pen (evs : list Event) :
  forall b, forallb keeps_pen evs = true ->
    strokeStyle (canvas (final (run evs b))) = strokeStyle (canvas b) /\
    lineWidth (canvas (final (run evs b))) = lineWidth (canvas b) /\
    exists added,
      bitmap (canvas (final (run evs b))) = bitmap (canvas b) ++ added /\
      Forall (inked_with (strokeStyle (canvas b)) (lineWidth (canvas b))) added.
Proof.
  induction evs as [|ev evs IH]; intros b Hevs.
  - cbn. split; [reflexivity|]. split; [reflexivity|].
    exists []. split; [now rewrite app_nil_r|constructor].
  - cbn in Hevs. apply andb_true_iff in Hevs as [Hev Hevs].
    destruct (deliver_keeps_pen ev b Hev) as (Hs & Hw & added & Hb & Hall).
    cbn [run]. unfold bind.
    destruct (deliver ev b) as [[] b1|e b1]; cbn in Hs, Hw, Hb |- *.
    + destruct (IH b1 Hevs) as (Hs1 & Hw1 & added1 & Hb1 & Hall1).
      rewrite Hs in Hs1, Hall1. rewrite Hw in Hw1, Hall1.
      split; [exact Hs1|]. split; [exact Hw1|].
      exists (added ++ added1). split.
      * rewrite Hb1, Hb. now rewrite app_assoc.
      * apply Forall_app. now split.
    + split; [exact Hs|]. split; [exact Hw|]. now exists added.
Qed.

(** What a style change does, and how long it lasts.  The handler of a
    received [ConfigMessage], and likewise the style effect run for a
    change of the style source, assigns [strokeStyle] and [lineWidth] at
    once and draws nothing; the context takes a colour that parses and a
    width that is positive and finite, and keeps what it had otherwise.
    For such a colour and width, the next segment, whether a received
    [DrawLine] or a local move of an active gesture, is stroked in them,
    and so is every stroke of the pointer and stroke events that follow,
    as long as none of them sets the style again or sizes the canvas. *)
Theorem config_applies_to_next_segment :
  (forall (b : Board) (cfg : ConfigMessage),
     exists b1,
       handleChangeConfig cfg b = Ok tt b1 /\
       strokeStyle (canvas b1) =
         (if parses_as_color (color cfg) then color cfg
          else strokeStyle (canvas b)) /\
       lineWidth (canvas b1) =
         (if Canvas2D.valid_width (size cfg) then size cfg
          else lineWidth (canvas b)) /\
       bitmap (canvas b1) = bitmap (canvas b)) /\
  (forall (b : Board) (c : string) (s : float),
     canvasRef b = true ->
     exists b1,
       styleEffect c s b = Ok tt b1 /\
       strokeStyle (canvas b1) =
         (if parses_as_color c then c else strokeStyle (canvas b)) /\
       lineWidth (canvas b1) =
         (if Canvas2D.valid_width s then s else lineWidth (canvas b)) /\
       bitmap (canvas b1) = bitmap (canvas b)) /\
  (forall (b : Board) (cfg : ConfigMessage) (q : Point),
     parses_as_color (color cfg) = true ->
     Canvas2D.valid_width (size cfg) = true ->
     exists path tf,
       bitmap (canvas (final (run [EvChangeConfig cfg; EvDrawLine q] b))) =
         bitmap (canvas b) ++
           [InkStroke path (mkPen (color cfg) (size cfg) CapRound JoinRound) tf]) /\
  (forall (b : Board) (cfg : ConfigMessage) (x y : float),
     parses_as_color (color cfg) = true ->
     Canvas2D.valid_width (size cfg) = true ->
     shouldDraw b = true ->
     exists path tf,
       bitmap (canvas (final (run [EvChangeConfig cfg; EvMove (MouseEvent x y)] b))) =
         bitmap (canvas b) ++
           [InkStroke path (mkPen (color cfg) (size cfg) CapRound JoinRound) tf]) /\
  (forall (b : Board) (cfg : ConfigMessage) (evs : list Event),
     parses_as_color (color cfg) = true ->
     Canvas2D.valid_width (size cfg) = true ->
     forallb keeps_pen evs = true ->
     exists added,
       bitmap (canvas (final (run (EvChangeConfig cfg :: evs) b))) =
         bitmap (canvas b) ++ added /\
       Forall (inked_with (color cfg) (size cfg)) added) /\
  (forall (b : Board) (c : string) (s : float) (evs : list Event),
     parses_as_color c = true ->
     Canvas2D.valid_width s = true ->
     canvasRef b = true ->
     forallb keeps_pen evs = true ->
     exists added,
       bitmap (canvas (final (run (EvStyle c s :: evs) b))) =
         bitmap (canvas b) ++ added /\
       Forall (inked_with c s) added).
Proof.
  split; [|split; [|split; [|split; [|split]]]].
  - intros b [c s]. destruct b as [m []]. eexists. split; [exec; reflexivity|].
    now repeat split.
  - intros b c s Hm. destruct b as [m []]. cbn in Hm. subst.
    eexists. split; [exec; reflexivity|]. now repeat split.
  - intros b [c s] q Hc Hs. cbn [color size] in Hc, Hs.
    destruct b as [m []]. do 2 eexists. cbn [run]. exec.
    rewrite Hc, Hs. reflexivity.
  - intros b [c s] x y Hc Hs Hactive. cbn [color size] in Hc, Hs.
    destruct b as [m []]. cbn in Hactive. subst.
    do 2 eexists. cbn [run]. exec. rewrite Hc, Hs. reflexivity.
  - intros b [c s] evs Hc Hs Hevs. cbn [color size] in Hc, Hs.
    cbn [run]. unfold bind at 1.
    assert (Hcfg : exists b1,
               deliver (EvChangeConfig (mkConfig c s)) b = Ok tt b1 /\
               strokeStyle (canvas b1) = c /\ lineWidth (canvas b1) = s /\
               bitmap (canvas b1) = bitmap (canvas b)).
    { destruct b as [m []]. eexists. split; [exec; reflexivity|].
      cbn. rewrite Hc, Hs. now repeat split. }
    destruct Hcfg as (b1 & -> & Hs1 & Hw1 & Hb).
    destruct (run_keeps_pen evs b1 Hevs) as (_ & _ & added & Hadd & Hall).
    exists added. rewrite Hs1, Hw1, Hb in *. now split.
  - intros b c s evs Hc Hs Hm Hevs. cbn [run]. unfold bind at 1.
    assert (Hsty : exists b1,
               deliver (EvStyle c s) b = Ok tt b1 /\
               strokeStyle (canvas b1) = c /\ lineWidth (canvas b1) = s /\
               bitmap (canvas b1) = bitmap (canvas b)).
    { destruct b as [m []]. cbn in Hm. subst.
      eexists. split; [exec; reflexivity|].
      cbn. rewrite Hc, Hs. now repeat split. }
    destruct Hsty as (b1 & -> & Hs1 & Hw1 & Hb).
    destruct (run_keeps_pen evs b1 Hevs) as (_ & _ & added & Hadd & Hall).
    exists added. rewrite Hs1, Hw1, Hb in *. now split.
Qed.

(* ================================================================== *)
(** * The action effect sizes the canvas first *)

Lemma actionEffect_succeeds_on (a : option Action) (b b1 : Board) :
  canvasRef b = true -> actionEffect a b = Ok tt b1 ->
  canvasRef b1 = true /\ ratio b1 = ratio b /\
  rectWidth b1 = rectWidth b /\ rectHeight b1 = rectHeight b.
Proof.
  intros Hm. destruct a as [[| |]|].
  - rewrite actionEffect_download by assumption. intros [= <-].
    destruct b; cbn in *. now subst.
  - rewrite actionEffect_history by (assumption || discriminate).
    destruct (Js.index _ _); [|discriminate]. intros [= <-].
    destruct b; cbn in *. now subst.
  - rewrite actionEffect_history by (assumption || discriminate).
    destruct (Js.index _ _); [|discriminate]. intros [= <-].
    destruct b; cbn in *. now subst.
  - rewrite actionEffect_null by assumption. intros [= <-].
    destruct b; cbn in *. now subst.
Qed.

(** C10. Every run of the action effect on the mounted canvas, for a
    command or for the cleared ([null]) command alike, begins by assigning
    [canvas.width] and [canvas.height] and scaling by the pixel ratio
    [window.devicePixelRatio || 1]; the branch of the command comes after.
    Nothing of the earlier pixels survives the assignment: with no command
    the surface ends up blank, a download exports a blank image, and undo
    and redo paint their snapshot onto a blank surface.  The
    transformation afterwards is the one scale, not an accumulation.  A
    delivered command that returns leaves a blank surface, because clearing
    the command is a change that runs the effect, and so the sizing, once
    more. *)
Theorem action_effect_sizes_canvas_first :
  forall (a : option Action) (b : Board),
    canvasRef b = true ->
    (exists rest,
       calls (final (actionEffect a b)) =
         calls b ++
           [CSetWidth (rectWidth b * ratio b); CSetHeight (rectHeight b * ratio b);
            CScale (ratio b) (ratio b);
            CSetLineCap CapRound; CSetLineJoin JoinRound] ++ rest /\
       match a with
       | None =>
           rest = [] /\ bitmap (canvas (final (actionEffect a b))) = []
       | Some DOWNLOAD =>
           rest = [CToDataURL "image/png"] /\
           bitmap (canvas (final (actionEffect a b))) = [] /\
           exists u,
             downloads (final (actionEffect a b)) =
               downloads b ++ [("drawing.png"%string, u)] /\
             url_pixels u = []
       | Some _ =>
           (exists img,
              rest = [CPutImageData img 0 0] /\
              bitmap (canvas (final (actionEffect a b))) = [ink_of_image img 0 0]) \/
           (rest = [] /\ bitmap (canvas (final (actionEffect a b))) = [] /\
            succeeded (actionEffect a b) = false)
       end) /\
    transform (canvas (final (actionEffect a b))) = [(ratio b, ratio b)] /\
    width (canvas (final (actionEffect a b))) =
      Canvas2D.dimension (rectWidth b * ratio b) 300 /\
    height (canvas (final (actionEffect a b))) =
      Canvas2D.dimension (rectHeight b * ratio b) 150 /\
    (forall c : Action,
       succeeded (deliver (EvAction c) b) = true ->
       bitmap (canvas (final (deliver (EvAction c) b))) = [] /\
       exists before,
         calls (final (deliver (EvAction c) b)) =
           before ++
             [CSetWidth (rectWidth b * ratio b); CSetHeight (rectHeight b * ratio b);
              CScale (ratio b) (ratio b);
              CSetLineCap CapRound; CSetLineJoin JoinRound]).
Proof.
  intros a b Hm. split; [|split; [|split; [|split]]].
  - destruct a as [[| |]|].
    + rewrite actionEffect_download by assumption.
      destruct b. exec. eexists. split; [now rewrite <- app_assoc|].
      split; [reflexivity|]. split; [reflexivity|].
      eexists. split; reflexivity.
    + rewrite actionEffect_history by (assumption || discriminate).
      destruct (Js.index _ _) as [img|]; destruct b; exec.
      * eexists. split; [now rewrite <- app_assoc|]. left. now exists img.
      * exists []. split; [reflexivity|]. right. now repeat split.
    + rewrite actionEffect_history by (assumption || discriminate).
      destruct (Js.index _ _) as [img|]; destruct b; exec.
      * eexists. split; [now rewrite <- app_assoc|]. left. now exists img.
      * exists []. split; [reflexivity|]. right. now repeat split.
    + rewrite actionEffect_null by assumption.
      destruct b. exec. exists []. now repeat split.
  - destruct a as [[| |]|];
      [ rewrite actionEffect_download by assumption
      | rewrite actionEffect_history by (assumption || discriminate);
        destruct (Js.index _ _)
      | rewrite actionEffect_history by (assumption || discriminate);
        destruct (Js.index _ _)
      | rewrite actionEffect_null by assumption ];
      now destruct b.
  - destruct a as [[| |]|];
      [ rewrite actionEffect_download by assumption
      | rewrite actionEffect_history by (assumption || discriminate);
        destruct (Js.index _ _)
      | rewrite actionEffect_history by (assumption || discriminate);
        destruct (Js.index _ _)
      | rewrite actionEffect_null by assumption ];
      now destruct b.
  - destruct a as [[| |]|];
      [ rewrite actionEffect_download by assumption
      | rewrite actionEffect_history by (assumption || discriminate);
        destruct (Js.index _ _)
      | rewrite actionEffect_history by (assumption || discriminate);
        destruct (Js.index _ _)
      | rewrite actionEffect_null by assumption ];
      now destruct b.
  - intros c.
    change (deliver (EvAction c) b)
      with (actionChanged (Some c) (actionItemClick (Some c) b)).
    set (b0 := actionItemClick (Some c) b).
    assert (Hm0 : canvasRef b0 = true) by (destruct b; exact Hm).
    assert (Hr : ratio b0 = ratio b) by now destruct b.
    assert (Hw : rectWidth b0 = rectWidth b) by now destruct b.
    assert (Hh : rectHeight b0 = rectHeight b) by now destruct b.
    clearbody b0. unfold actionChanged, bind.
    destruct (actionEffect (Some c) b0) as [[] b1|e b1] eqn:Hrun;
      [|discriminate].
    destruct (actionEffect_succeeds_on _ _ _ Hm0 Hrun) as (Hm1 & Hr1 & Hw1 & Hh1).
    rewrite actionEffect_null by assumption. intros _.
    rewrite <- Hr, <- Hw, <- Hh, <- Hr1, <- Hw1, <- Hh1.
    destruct b1. exec. split; [reflexivity|]. eexists. reflexivity.
Qed.

(* ================================================================== *)
(** * Whole gestures, sent and replayed *)

Lemma point_eta (p : Point) : mkPoint (px p) (py p) = p.
Proof. now destruct p. Qed.

Lemma last_cons {A : Type} (l : list A) :
  forall x d, last (x :: l) d = last l x.
Proof.
  induction l as [|y l IH]; intros x d; [reflexivity|].
  change (last (x :: y :: l) d) with (last (y :: l) d).
  now rewrite !IH.
Qed.

(** One move of an active gesture. *)
Lemma move_while_active (p : Point) (b : Board) :
  shouldDraw b = true ->
  exists b',
    deliver (move p) b = Ok tt b' /\
    emitted b' = emitted b ++ [DrawLine p] /\
    lastPos b' = p /\
    shouldDraw b' = true /\
    (exists i, bitmap (canvas b') = bitmap (canvas b) ++ [i] /\
               ink_segments i = [smooth (lastPos b) p]) /\
    drawHistory b' = drawHistory b /\
    historyPointer b' = historyPointer b.
Proof.
  destruct b as [m cv h hp active [lx ly] dr am d rw rh em dl cl], p as [x y].
  cbn [shouldDraw]. intros ->.
  eexists. split; [unfold move; exec; reflexivity|]. cbn.
  split; [reflexivity|]. split; [reflexivity|]. split; [reflexivity|].
  split; [|now split]. eexists. split; reflexivity.
Qed.

Lemma moves_while_active (ps : list Point) :
  forall b,
    shouldDraw b = true ->
    exists b',
      run (map move ps) b = Ok tt b' /\
      emitted b' = emitted b ++ map DrawLine ps /\
      lastPos b' = last ps (lastPos b) /\
      shouldDraw b' = true /\
      (exists strokes, bitmap (canvas b') = bitmap (canvas b) ++ strokes /\
                       map ink_segments strokes = curves (lastPos b) ps) /\
      drawHistory b' = drawHistory b /\
      historyPointer b' = historyPointer b.
Proof.
  induction ps as [|p ps IH]; intros b Hactive.
  - exists b. split; [reflexivity|]. split; [now rewrite app_nil_r|].
    split; [reflexivity|]. split; [exact Hactive|].
    split; [|now split]. exists []. split; [now rewrite app_nil_r|reflexivity].
  - destruct (move_while_active p b Hactive)
      as (b1 & Hrun1 & Hem1 & Hlp1 & Hact1 & (i & Hbm1 & Hseg1) & Hh1 & Hp1).
    destruct (IH b1 Hact1)
      as (b2 & Hrun2 & Hem2 & Hlp2 & Hact2 & (strokes & Hbm2 & Hseg2) & Hh2 & Hp2).
    exists b2. cbn [map run]. unfold bind. rewrite Hrun1.
    split; [exact Hrun2|].
    split; [rewrite Hem2, Hem1, <- app_assoc; reflexivity|].
    split; [rewrite Hlp2, Hlp1; now rewrite last_cons|].
    split; [exact Hact2|].
    split; [|split; congruence].
    exists (i :: strokes). split.
    + rewrite Hbm2, Hbm1, <- app_assoc. reflexivity.
    + cbn [map curves]. now rewrite Hseg1, Hseg2, Hlp1.
Qed.

(** X2. A press at [p0] followed by moves through [ps] never throws,
    sends [BeginPath p0] and then one [DrawLine] per move, in order, and
    inks one stroke per move: a single cubic from the point before to the
    point of the move.  It leaves the gesture active at the last point and
    the history as it was. *)
Theorem gesture_sends_what_it_draws :
  forall (b : Board) (p0 : Point) (ps : list Point),
    exists b',
      run (gesture p0 ps) b = Ok tt b' /\
      emitted b' = emitted b ++ BeginPath p0 :: map DrawLine ps /\
      (exists strokes,
         bitmap (canvas b') = bitmap (canvas b) ++ strokes /\
         map ink_segments strokes = curves p0 ps) /\
      lastPos b' = last ps p0 /\
      shouldDraw b' = true /\
      drawHistory b' = drawHistory b /\
      historyPointer b' = historyPointer b.
Proof.
  intros b p0 ps.
  assert (Hpress : exists b1,
             deliver (press p0) b = Ok tt b1 /\
             emitted b1 = emitted b ++ [BeginPath p0] /\
             lastPos b1 = p0 /\ shouldDraw b1 = true /\
             bitmap (canvas b1) = bitmap (canvas b) /\
             drawHistory b1 = drawHistory b /\
             historyPointer b1 = historyPointer b).
  { destruct b, p0. eexists. split; [unfold press; exec; reflexivity|].
    now repeat split. }
  destruct Hpress as (b1 & Hrun1 & Hem1 & Hlp1 & Hact1 & Hbm1 & Hh1 & Hp1).
  destruct (moves_while_active ps b1 Hact1)
    as (b2 & Hrun2 & Hem2 & Hlp2 & Hact2 & (strokes & Hbm2 & Hseg2) & Hh2 & Hp2).
  exists b2. unfold gesture. cbn [run]. unfold bind. rewrite Hrun1.
  split; [exact Hrun2|].
  split; [rewrite Hem2, Hem1, <- app_assoc; reflexivity|].
  split; [exists strokes; split; congruence|].
  split; [congruence|]. split; [exact Hact2|]. split; congruence.
Qed.

Lemma segments_of_lines (ps : list Point) :
  forall p0, segments_from (Some p0) (map PLine ps) = polyline p0 ps.
Proof.
  induction ps as [|p ps IH]; intros p0; [reflexivity|].
  cbn. now rewrite IH.
Qed.

Lemma received_lines (ps : list Point) :
  forall r,
    exists r',
      run (map EvDrawLine ps) r = Ok tt r' /\
      path (canvas r') =
        path (canvas r) ++ map (fun p => (transform (canvas r), PLine p)) ps /\
      transform (canvas r') = transform (canvas r) /\
      (exists strokes, bitmap (canvas r') = bitmap (canvas r) ++ strokes /\
                       List.length strokes = List.length ps) /\
      emitted r' = emitted r /\
      drawHistory r' = drawHistory r /\
      historyPointer r' = historyPointer r.
Proof.
  induction ps as [|p ps IH]; intros r.
  - exists r. split; [reflexivity|]. split; [now rewrite app_nil_r|].
    split; [reflexivity|]. split; [|now repeat split].
    exists []. split; [now rewrite app_nil_r|reflexivity].
  - assert (Hline : exists r1,
               deliver (EvDrawLine p) r = Ok tt r1 /\
               path (canvas r1) = path (canvas r) ++ [(transform (canvas r), PLine p)] /\
               transform (canvas r1) = transform (canvas r) /\
               (exists i, bitmap (canvas r1) = bitmap (canvas r) ++ [i]) /\
               emitted r1 = emitted r /\
               drawHistory r1 = drawHistory r /\
               historyPointer r1 = historyPointer r).
    { destruct r as [m [cw ch bm tf ss lw lc lj pa] h hp act lp dr am d rw rh em dl cl].
      destruct p. eexists. split; [exec; reflexivity|]. cbn.
      split; [reflexivity|]. split; [reflexivity|].
      split; [eexists; reflexivity|]. now repeat split. }
    destruct Hline as (r1 & Hrun1 & Hpa1 & Htf1 & (i & Hbm1) & Hem1 & Hh1 & Hp1).
    destruct (IH r1)
      as (r2 & Hrun2 & Hpa2 & Htf2 & (strokes & Hbm2 & Hlen) & Hem2 & Hh2 & Hp2).
    exists r2. cbn [map run]. unfold bind. rewrite Hrun1.
    split; [exact Hrun2|].
    split; [rewrite Hpa2, Hpa1, Htf1, <- app_assoc; reflexivity|].
    split; [congruence|].
    split; [|repeat split; congruence].
    exists (i :: strokes). split.
    + rewrite Hbm2, Hbm1, <- app_assoc. reflexivity.
    + cbn. now rewrite Hlen.
Qed.

(** X3. A peer that receives [BeginPath p0] and then [DrawLine] for each
    of [ps], with nothing in between, ends with a current path made of the
    straight lines through [p0] and [ps] in order, having stroked once per
    [DrawLine]; it sends nothing and records nothing. *)
Theorem replay_is_the_polyline :
  forall (r : Board) (p0 : Point) (ps : list Point),
    exists r',
      run (map receive (BeginPath p0 :: map DrawLine ps)) r = Ok tt r' /\
      segments (path (canvas r')) = polyline p0 ps /\
      (exists strokes, bitmap (canvas r') = bitmap (canvas r) ++ strokes /\
                       List.length strokes = List.length ps) /\
      emitted r' = emitted r /\
      drawHistory r' = drawHistory r /\
      historyPointer r' = historyPointer r.
Proof.
  intros r p0 ps.
  assert (Hbegin : exists r1,
             deliver (EvBeginPath p0) r = Ok tt r1 /\
             path (canvas r1) = [(transform (canvas r), PMove p0)] /\
             bitmap (canvas r1) = bitmap (canvas r) /\
             emitted r1 = emitted r /\
             drawHistory r1 = drawHistory r /\
             historyPointer r1 = historyPointer r).
  { destruct r as [m [cw ch bm tf ss lw lc lj pa] h hp act lp dr am d rw rh em dl cl].
    destruct p0. eexists. split; [exec; reflexivity|]. now repeat split. }
  destruct Hbegin as (r1 & Hrun1 & Hpa1 & Hbm1 & Hem1 & Hh1 & Hp1).
  destruct (received_lines ps r1)
    as (r2 & Hrun2 & Hpa2 & _ & (strokes & Hbm2 & Hlen) & Hem2 & Hh2 & Hp2).
  exists r2. cbn [map receive run]. rewrite map_map. cbn [receive].
  unfold bind. rewrite Hrun1.
  split; [exact Hrun2|].
  split.
  - unfold segments. rewrite Hpa2, Hpa1. cbn [app map snd segments_from].
    rewrite map_map. cbn [snd]. apply segments_of_lines.
  - split; [exists strokes; split; congruence|]. repeat split; congruence.
Qed.

(* ================================================================== *)
(** * What a session never does *)

Lemma deliver_sends_nothing (ev : Event) (b : Board) :
  is_pointer_input ev = false ->
  emitted (final (deliver ev b)) = emitted b.
Proof.
  intros Hev. destruct ev as [e|e| |dpr w h|a|c s|p|p|cfg];
    try discriminate Hev.
  3: { change (deliver (EvAction a) b)
         with (actionChanged (Some a) (actionItemClick (Some a) b)).
       destruct (actionChanged_frame (Some a) (actionItemClick (Some a) b))
         as (_ & _ & _ & _ & ->). now destruct b. }
  all: destruct b; branch; reflexivity.
Qed.

(** X1. Only local pointer input is ever sent: whatever the board, a run
    of events without a press or a move (received stroke and style
    messages, commands, resizes, style changes, ends of gestures) emits
    nothing on the socket, whether it returns or throws.  In particular
    received messages are not echoed. *)
Theorem nothing_sent_without_pointer_input :
  forall (evs : list Event) (b : Board),
    forallb (fun ev => negb (is_pointer_input ev)) evs = true ->
    emitted (final (run evs b)) = emitted b.
Proof.
  induction evs as [|ev evs IH]; intros b Hevs; [reflexivity|].
  cbn in Hevs. apply andb_true_iff in Hevs as [Hev Hevs].
  apply negb_true_iff in Hev.
  pose proof (deliver_sends_nothing ev b Hev) as Hstep.
  cbn [run]. unfold bind. destruct (deliver ev b) as [[] b1|e b1]; cbn in *.
  - now rewrite IH.
  - exact Hstep.
Qed.

(** X4. The handler of [mouseup], [mouseout] and [touchend] acts once
    per gesture: a second end right after the first changes nothing, so a
    release followed by the pointer leaving the canvas records one
    snapshot, not two.  An end without a gesture records none, and neither
    does the end of a gesture on a canvas without pixels, where the
    capture throws. *)
Theorem second_end_is_ignored :
  forall b : Board,
    run [EvEnd; EvEnd] b = run [EvEnd] b /\
    (Js.length (drawHistory (final (run [EvEnd; EvEnd] b))) =
       Js.length (drawHistory b) +
       (if shouldDraw b &&
           negb ((width (canvas b) =? 0) || (height (canvas b) =? 0))
        then 1 else 0)).
Proof.
  intros b.
  destruct b as [m [cw ch bm tf ss lw lc lj pa] h hp active lp dr am d rw rh em dl cl].
  destruct active; cbn [run]; exec.
  - destruct ((cw =? 0) || (ch =? 0)); exec.
    + split; [reflexivity|]. cbn. lia.
    + split; [reflexivity|]. cbn. apply js_length_snoc.
  - split; [reflexivity|]. cbn. lia.
Qed.

Lemma actionEffect_keeps_isDrawing (a : option Action) (b : Board) :
  isDrawing (final (actionEffect a b)) = isDrawing b.
Proof.
  destruct (canvasRef b) eqn:H.
  - destruct a as [[| |]|];
      [ rewrite actionEffect_download by assumption
      | rewrite actionEffect_history by (assumption || discriminate);
        destruct (Js.index _ _)
      | rewrite actionEffect_history by (assumption || discriminate);
        destruct (Js.index _ _)
      | rewrite actionEffect_null by assumption ];
      now destruct b.
  - now rewrite actionEffect_unmounted by assumption.
Qed.

Lemma handlers_keep_cursor_in_step (ev : Event) (b : Board) :
  (forall a, ev <> EvAction a) ->
  isDrawing b = shouldDraw b ->
  match deliver ev b with
  | Ok _ b' => isDrawing b' = shouldDraw b'
  | Throw _ _ => True
  end.
Proof.
  intros Hev.
  destruct b as [m cv hs hp active lp dr am d0 rw rh em dl cl].
  cbn [isDrawing shouldDraw]. intros ->.
  destruct ev; try (now contradiction (Hev a)); branch; exact I || reflexivity.
Qed.

Lemma deliver_keeps_cursor_in_step (ev : Event) (b b' : Board) :
  deliver ev b = Ok tt b' ->
  isDrawing b = shouldDraw b -> isDrawing b' = shouldDraw b'.
Proof.
  intros Hrun Hinv.
  assert (Hcases : (exists a, ev = EvAction a) \/ (forall a, ev <> EvAction a)).
  { destruct ev; try (right; intros ?; discriminate). left. now eexists. }
  destruct Hcases as [[a ->]|Hev].
  - change (deliver (EvAction a) b)
      with (actionChanged (Some a) (actionItemClick (Some a) b)) in Hrun.
    destruct (actionChanged_frame (Some a) (actionItemClick (Some a) b))
      as (_ & Hs & _).
    rewrite Hrun in Hs. cbn in Hs. rewrite Hs.
    unfold actionChanged, bind in Hrun.
    pose proof (actionEffect_keeps_isDrawing (Some a) (actionItemClick (Some a) b))
      as H1.
    destruct (actionEffect (Some a) (actionItemClick (Some a) b))
      as [[] b1|err b1]; [|discriminate Hrun].
    pose proof (actionEffect_keeps_isDrawing None b1) as H2.
    rewrite Hrun in H2. cbn in H1, H2. rewrite H2, H1.
    now destruct b.
  - pose proof (handlers_keep_cursor_in_step ev b Hev Hinv) as H.
    now rewrite Hrun in H.
Qed.

(** X5. On every reachable board the [isDrawing] state equals the
    [shouldDraw] ref, so the canvas shows the [grabbing] cursor exactly
    while a gesture is active. *)
Theorem cursor_follows_gesture :
  forall b : Board,
    reachable b ->
    isDrawing b = shouldDraw b /\
    cursor b = (if shouldDraw b then "grabbing" else "grab")%string.
Proof.
  intros b (dpr & w & h & c & s & evs & Hrun).
  assert (Hinv : isDrawing b = shouldDraw b).
  { assert (H0 : isDrawing (mounted dpr w h c s) = shouldDraw (mounted dpr w h c s))
      by reflexivity.
    revert Hrun H0. generalize (mounted dpr w h c s).
    induction evs as [|ev evs IH]; intros b0 Hrun H0.
    - injection Hrun as <-. exact H0.
    - cbn [run] in Hrun. unfold bind in Hrun.
      destruct (deliver ev b0) as [[] b1|err b1] eqn:Hstep; [|discriminate Hrun].
      apply (IH b1 Hrun). eapply deliver_keeps_cursor_in_step; eassumption. }
  split; [exact Hinv|]. unfold cursor. now rewrite Hinv.
Qed.

Lemma deliver_grows_history (ev : Event) (b : Board) :
  exists added,
    drawHistory (final (deliver ev b)) = drawHistory b ++ added /\
    (List.length added <= if is_end ev then 1 else 0)%nat.
Proof.
  destruct (touches_history ev) eqn:Hev.
  - destruct ev; try discriminate Hev.
    + destruct b as [m [cw ch bm tf ss lw lc lj pa] h hp active lp dr am d rw rh em dl cl].
      destruct active; exec.
      * destruct ((cw =? 0) || (ch =? 0)); exec.
        -- exists []. split; [now rewrite app_nil_r|]. cbn. lia.
        -- eexists. split; [reflexivity|]. cbn. lia.
      * exists []. split; [now rewrite app_nil_r|]. cbn. lia.
    + change (deliver (EvAction a) b)
        with (actionChanged (Some a) (actionItemClick (Some a) b)).
      destruct (actionChanged_frame (Some a) (actionItemClick (Some a) b))
        as (-> & _).
      exists []. split; [destruct b; now rewrite app_nil_r|]. cbn. lia.
  - destruct (deliver_history_frame ev b Hev) as (-> & _).
    exists []. split; [now rewrite app_nil_r|]. destruct (is_end ev); cbn; lia.
Qed.

(** X6. No event ever removes or rewrites a snapshot: after any run of
    events, returned or thrown, [drawHistory] is the history before with
    snapshots appended, at most one per end of a gesture. *)
Theorem history_only_grows :
  forall (evs : list Event) (b : Board),
    exists added,
      drawHistory (final (run evs b)) = drawHistory b ++ added /\
      (List.length added <= List.length (filter is_end evs))%nat.
Proof.
  induction evs as [|ev evs IH]; intros b.
  - exists []. split; [now rewrite app_nil_r|]. cbn. lia.
  - destruct (deliver_grows_history ev b) as (added1 & Hh1 & Hlen1).
    cbn [run]. unfold bind.
    destruct (deliver ev b) as [[] b1|err b1]; cbn in Hh1 |- *.
    + destruct (IH b1) as (added2 & Hh2 & Hlen2).
      exists (added1 ++ added2). split.
      * rewrite Hh2, Hh1. now rewrite app_assoc.
      * rewrite length_app. destruct (is_end ev); cbn; lia.
    + exists added1. split; [exact Hh1|]. destruct (is_end ev); cbn; lia.
Qed.

(* ================================================================== *)
(** * Moving through the history *)

Lemma undo_n (n : nat) :
  forall b, canvasRef b = true -> history_ok b ->
    exists b',
      run (map EvAction (repeat UNDO n)) b = Ok tt b' /\
      historyPointer b' = Z.max 0 (historyPointer b - Z.of_nat n) /\
      drawHistory b' = drawHistory b.
Proof.
  induction n as [|n IH]; intros b Hm Hok.
  - exists b. split; [reflexivity|]. unfold history_ok in Hok. split; [lia|reflexivity].
  - destruct (deliver_action UNDO b Hm Hok) as (b1 & Hrun & Hh & Hp & Hm1 & _).
    assert (Hok1 : history_ok b1).
    { unfold history_ok. rewrite Hh, Hp. now apply newPointer_in_range. }
    destruct (IH b1 Hm1 Hok1) as (b2 & Hrun2 & Hp2 & Hh2).
    exists b2. cbn [repeat map run]. unfold bind. rewrite Hrun.
    split; [exact Hrun2|]. split; [|congruence].
    rewrite Hp2, Hp. unfold newPointer. lia.
Qed.

Lemma redo_n (n : nat) :
  forall b, canvasRef b = true -> history_ok b ->
    exists b',
      run (map EvAction (repeat REDO n)) b = Ok tt b' /\
      historyPointer b' =
        Z.min (Js.length (drawHistory b) - 1) (historyPointer b + Z.of_nat n) /\
      drawHistory b' = drawHistory b.
Proof.
  induction n as [|n IH]; intros b Hm Hok.
  - exists b. split; [reflexivity|]. unfold history_ok in Hok. split; [lia|reflexivity].
  - destruct (deliver_action REDO b Hm Hok) as (b1 & Hrun & Hh & Hp & Hm1 & _).
    assert (Hok1 : history_ok b1).
    { unfold history_ok. rewrite Hh, Hp. now apply newPointer_in_range. }
    destruct (IH b1 Hm1 Hok1) as (b2 & Hrun2 & Hp2 & Hh2).
    exists b2. cbn [repeat map run]. unfold bind. rewrite Hrun.
    split; [exact Hrun2|]. split; [|congruence].
    rewrite Hp2, Hh, Hp. unfold newPointer. lia.
Qed.

(** X7. On a mounted board with the pointer [p] at one of its
    snapshots, [n] delivered undos end with the pointer at
    [max 0 (p - n)] and [n] delivered redos with the pointer at
    [min (length - 1) (p + n)]; none of them throws or touches the
    snapshots.  So [p] undos reach the first snapshot and further ones
    stay there, and likewise for redo and the last one. *)
Theorem repeated_undo_redo :
  forall (b : Board) (n : nat),
    canvasRef b = true -> history_ok b ->
    (exists b',
       run (map EvAction (repeat UNDO n)) b = Ok tt b' /\
       historyPointer b' = Z.max 0 (historyPointer b - Z.of_nat n) /\
       drawHistory b' = drawHistory b) /\
    (exists b',
       run (map EvAction (repeat REDO n)) b = Ok tt b' /\
       historyPointer b' =
         Z.min (Js.length (drawHistory b) - 1) (historyPointer b + Z.of_nat n) /\
       drawHistory b' = drawHistory b).
Proof.
  intros b n Hm Hok. split; [now apply undo_n|now apply redo_n].
Qed.

(** X8. Undo and redo undo each other away from the ends: with the
    pointer [p] past the first snapshot, a delivered undo followed by a
    delivered redo brings the pointer back to [p], and with [p] before the
    last snapshot so does a redo followed by an undo. *)
Theorem undo_redo_round_trip :
  forall b : Board,
    canvasRef b = true -> history_ok b ->
    (0 < historyPointer b ->
     exists b', run [EvAction UNDO; EvAction REDO] b = Ok tt b' /\
                historyPointer b' = historyPointer b /\
                drawHistory b' = drawHistory b) /\
    (historyPointer b < Js.length (drawHistory b) - 1 ->
     exists b', run [EvAction REDO; EvAction UNDO] b = Ok tt b' /\
                historyPointer b' = historyPointer b /\
                drawHistory b' = drawHistory b).
Proof.
  intros b Hm Hok. split; intros Hp.
  - destruct (deliver_action UNDO b Hm Hok) as (b1 & Hrun1 & Hh1 & Hp1 & Hm1 & _).
    assert (Hok1 : history_ok b1).
    { unfold history_ok. rewrite Hh1, Hp1. now apply newPointer_in_range. }
    destruct (deliver_action REDO b1 Hm1 Hok1) as (b2 & Hrun2 & Hh2 & Hp2 & _).
    exists b2. cbn [run]. unfold bind. rewrite Hrun1, Hrun2.
    split; [reflexivity|]. split; [|congruence].
    rewrite Hp2. unfold newPointer. rewrite Hh1, Hp1. unfold newPointer.
    unfold history_ok in Hok. lia.
  - destruct (deliver_action REDO b Hm Hok) as (b1 & Hrun1 & Hh1 & Hp1 & Hm1 & _).
    assert (Hok1 : history_ok b1).
    { unfold history_ok. rewrite Hh1, Hp1. now apply newPointer_in_range. }
    destruct (deliver_action UNDO b1 Hm1 Hok1) as (b2 & Hrun2 & Hh2 & Hp2 & _).
    exists b2. cbn [run]. unfold bind. rewrite Hrun1, Hrun2.
    split; [reflexivity|]. split; [|congruence].
    rewrite Hp2. unfold newPointer. rewrite Hp1. unfold newPointer.
    unfold history_ok in Hok. lia.
Qed.

(* ================================================================== *)
(** * Commands, as delivered *)

Lemma deliver_action_clears (a : Action) (b b' : Board) :
  canvasRef b = true ->
  deliver (EvAction a) b = Ok tt b' -> actionMenuItem b' = None.
Proof.
  intros Hm.
  change (deliver (EvAction a) b)
    with (actionChanged (Some a) (actionItemClick (Some a) b)).
  assert (Hm0 : canvasRef (actionItemClick (Some a) b) = true)
    by (destruct b; exact Hm).
  unfold actionChanged, bind.
  destruct (actionEffect (Some a) (actionItemClick (Some a) b))
    as [[] b1|err b1] eqn:Hrun; [|discriminate].
  destruct (actionEffect_succeeds_on _ _ _ Hm0 Hrun) as (Hm1 & _).
  rewrite actionEffect_null by assumption. intros [= <-]. now destruct b1.
Qed.

Lemma deliver_download_returns (b : Board) :
  canvasRef b = true ->
  exists b', deliver (EvAction DOWNLOAD) b = Ok tt b'.
Proof.
  intros Hm.
  change (deliver (EvAction DOWNLOAD) b)
    with (actionChanged (Some DOWNLOAD) (actionItemClick (Some DOWNLOAD) b)).
  unfold actionChanged, bind.
  rewrite actionEffect_download by (destruct b; exact Hm).
  rewrite actionEffect_null by (destruct b; exact Hm).
  now eexists.
Qed.


(** X14. On a reachable board a delivered command throws exactly when it
    is an undo or a redo and the history holds no snapshot.  A command
    that returns has been cleared from the store; one that throws is
    still there. *)
Theorem command_throws_exactly_on_empty_history :
  forall (b : Board) (a : Action),
    reachable b ->
    (succeeded (deliver (EvAction a) b) = false <->
     a <> DOWNLOAD /\ drawHistory b = []) /\
    actionMenuItem (final (deliver (EvAction a) b)) =
      (if succeeded (deliver (EvAction a) b) then None else Some a).
Proof.
  intros b a Hreach.
  destruct (reachable_board_ok b Hreach) as [Hm Hh].
  assert (Hcases : (a <> DOWNLOAD /\ drawHistory b = []) \/
                   (exists b', deliver (EvAction a) b = Ok tt b')).
  { destruct Hh as [Hempty|Hok].
    - destruct a.
      + right. exact (deliver_download_returns b Hm).
      + left. split; [discriminate|exact Hempty].
      + left. split; [discriminate|exact Hempty].
    - right. destruct (deliver_action a b Hm Hok) as (b' & Hrun & _).
      now exists b'. }
  destruct Hcases as [[Ha Hempty]|[b' Hrun]].
  - assert (Hthrow : exists b', deliver (EvAction a) b = Throw Js.TypeError b' /\
                                actionMenuItem b' = Some a).
    { change (deliver (EvAction a) b)
        with (actionChanged (Some a) (actionItemClick (Some a) b)).
      unfold actionChanged, bind.
      rewrite actionEffect_history by (try assumption; destruct b; exact Hm).
      rewrite newPointer_empty by (destruct b; exact Hempty).
      eexists. split; [reflexivity|]. now destruct b. }
    destruct Hthrow as (b' & -> & Hstore). cbn.
    split; [|exact Hstore]. split; [now intros _|reflexivity].
  - assert (Hne : ~ (a <> DOWNLOAD /\ drawHistory b = [])).
    { intros [Ha Hempty].
      change (deliver (EvAction a) b)
        with (actionChanged (Some a) (actionItemClick (Some a) b)) in Hrun.
      unfold actionChanged, bind in Hrun.
      rewrite actionEffect_history in Hrun
        by (try assumption; destruct b; exact Hm).
      rewrite newPointer_empty in Hrun by (destruct b; exact Hempty).
      discriminate Hrun. }
    pose proof (deliver_action_clears a b b' Hm Hrun) as Hstore.
    rewrite Hrun. cbn. split; [|exact Hstore].
    split; [discriminate|intros H; now destruct Hne].
Qed.

(* ================================================================== *)
(** * The canvas over a session *)

Lemma handlers_keep_size (ev : Event) (b : Board) :
  (forall a, ev <> EvAction a) ->
  sized_for_window b ->
  match deliver ev b with
  | Ok _ b' => sized_for_window b'
  | Throw _ _ => True
  end.
Proof.
  intros Hev.
  destruct b as [m [cw ch bm tf ss lw lc lj pa] hs hp active lp dr am d0 rw rh em dl cl].
  unfold sized_for_window, ratio. cbn.
  intros (-> & -> & -> & -> & ->).
  destruct ev; try (now contradiction (Hev a)); branch;
    exact I || (repeat split).
Qed.

Lemma sized_is_sized (b : Board) (v : option Action) :
  sized_for_window (actionItemClick v (sized b)).
Proof. destruct b. unfold sized_for_window, ratio. exec. now repeat split. Qed.

Lemma deliver_keeps_size (ev : Event) (b b' : Board) :
  deliver ev b = Ok tt b' -> sized_for_window b -> sized_for_window b'.
Proof.
  intros Hrun Hinv.
  assert (Hcases : (exists a, ev = EvAction a) \/ (forall a, ev <> EvAction a)).
  { destruct ev; try (right; intros ?; discriminate). left. now eexists. }
  destruct Hcases as [[a ->]|Hev].
  - change (deliver (EvAction a) b)
      with (actionChanged (Some a) (actionItemClick (Some a) b)) in Hrun.
    set (b0 := actionItemClick (Some a) b) in *.
    assert (Hinv0 : sized_for_window b0) by (destruct b; exact Hinv).
    clearbody b0. unfold actionChanged, bind in Hrun.
    destruct (canvasRef b0) eqn:Hm.
    + destruct (actionEffect (Some a) b0) as [[] b1|err b1] eqn:Hrun1;
        [|discriminate Hrun].
      destruct (actionEffect_succeeds_on _ _ _ Hm Hrun1) as (Hm1 & _).
      rewrite actionEffect_null in Hrun by assumption.
      injection Hrun as <-. apply sized_is_sized.
    + rewrite actionEffect_unmounted in Hrun by assumption.
      rewrite actionEffect_unmounted in Hrun by assumption.
      now injection Hrun as <-.
  - pose proof (handlers_keep_size ev b Hev Hinv) as H.
    now rewrite Hrun in H.
Qed.

(** X12. On every reachable board the canvas has the size of its box
    times the pixel ratio ([window.devicePixelRatio || 1]), its
    transformation is a single scale by that ratio, never an accumulation
    of the scales of earlier sizings, and its line caps and joins are
    round. *)
Theorem reachable_canvas_is_sized :
  forall b : Board, reachable b -> sized_for_window b.
Proof.
  intros b (dpr & w & h & c & s & evs & Hrun).
  assert (H0 : sized_for_window (mounted dpr w h c s)).
  { unfold sized_for_window, ratio. now repeat split. }
  revert Hrun H0. generalize (mounted dpr w h c s).
  induction evs as [|ev evs IH]; intros b0 Hrun H0.
  - now injection Hrun as <-.
  - cbn [run] in Hrun. unfold bind in Hrun.
    destruct (deliver ev b0) as [[] b1|err b1] eqn:Hstep; [|discriminate Hrun].
    apply (IH b1 Hrun). eapply deliver_keeps_size; eassumption.
Qed.

(** X15. A window resize in the middle of a gesture erases what was
    drawn and resets the pen, but the gesture goes on: the next move
    returns, sends its [DrawLine], and leaves as the only ink on the
    surface one cubic from the last point before the resize to the point
    of the move, stroked in the context's default colour and width under
    the new scale.  The history is not touched. *)
Theorem resize_during_gesture :
  forall (b : Board) (dpr w h : float) (p : Point),
    shouldDraw b = true ->
    exists b' path,
      run [EvResize dpr w h; move p] b = Ok tt b' /\
      bitmap (canvas b') =
        [InkStroke path (mkPen "#000000" 1 CapRound JoinRound)
                   [(Js.or_else dpr 1, Js.or_else dpr 1)]] /\
      segments path = [smooth (lastPos b) p] /\
      emitted b' = emitted b ++ [DrawLine p] /\
      shouldDraw b' = true /\
      drawHistory b' = drawHistory b /\
      historyPointer b' = historyPointer b.
Proof.
  intros b dpr w h p Hactive.
  destruct b as [m cv hs hp active [lx ly] dr am d0 rw rh em dl cl], p as [x y].
  cbn [shouldDraw] in Hactive. subst active.
  do 2 eexists. split; [cbn [run]; unfold move; exec; reflexivity|].
  cbn. now repeat split.
Qed.

(** X16. From mounting on, every stroke is drawn in the colour and width
    of the selected tool, for as long as only pointer events and received
    stroke messages arrive: the style effect of the mount runs after the
    sizing of the canvas, and none of these events sets the pen.  (Were
    the tool's colour not to parse, or its width not positive and finite,
    the context would have kept its default for it, black or 1.) *)
Theorem strokes_after_mount_use_tool_style :
  forall (dpr w h : float) (c : string) (s : float) (evs : list Event),
    forallb keeps_pen evs = true ->
    Forall (inked_with (if parses_as_color c then c else "#000000"%string)
                       (if Canvas2D.valid_width s then s else 1%float))
           (bitmap (canvas (final (run evs (mounted dpr w h c s))))).
Proof.
  intros dpr w h c s evs Hevs.
  destruct (run_keeps_pen evs (mounted dpr w h c s) Hevs)
    as (_ & _ & added & Hadd & Hall).
  rewrite Hadd. exact Hall.
Qed.

(* ================================================================== *)
(** * Local and remote strokes on one context *)

(** X17. Local and received strokes share the context's one current
    path.  When a local move of an active gesture falls between a received
    [BeginPath p0] and a received [DrawLine q], the received line does not
    start at [p0]: the move has begun a path of its own, and the line is
    drawn from the point of the move to [q], after the cubic of the move,
    which the [DrawLine] handler strokes once more. *)
Theorem local_move_captures_remote_path :
  forall (b : Board) (p0 p q : Point),
    shouldDraw b = true ->
    exists b' earlier i,
      run [EvBeginPath p0; move p; EvDrawLine q] b = Ok tt b' /\
      segments (path (canvas b')) = [smooth (lastPos b) p; SegLine p q] /\
      bitmap (canvas b') = earlier ++ [i] /\
      ink_segments i = [smooth (lastPos b) p; SegLine p q].
Proof.
  intros b p0 p q Hactive.
  destruct b as [m [cw ch bm tf ss lw lc lj pa] hs hp active [lx ly] dr am d0 rw rh em dl cl].
  destruct p0 as [x0 y0], p as [x y], q as [x' y'].
  cbn [shouldDraw] in Hactive. subst active.
  do 3 eexists. split; [cbn [run]; unfold move; exec; reflexivity|].
  cbn [canvas path bitmap]. split; [reflexivity|].
  split; reflexivity.
Qed.

Lemma remote_keeps_gesture (ev : Event) (b : Board) :
  is_remote_stroke ev = true ->
  exists b',
    deliver ev b = Ok tt b' /\
    shouldDraw b' = shouldDraw b /\
    lastPos b' = lastPos b /\
    emitted b' = emitted b.
Proof.
  intros Hev. destruct b, ev; try discriminate Hev;
    (eexists; split; [exec; reflexivity|]); now repeat split.
Qed.

(** X18. Received strokes do not disturb a local gesture: with any
    received [BeginPath] and [DrawLine] messages handled since the last
    local point, the next move still returns, sends its [DrawLine], and
    inks exactly one cubic from the last local point to the point of the
    move. *)
Theorem remote_strokes_leave_local_gesture_alone :
  forall (evs : list Event) (b : Board) (p : Point),
    shouldDraw b = true ->
    forallb is_remote_stroke evs = true ->
    exists b' earlier i,
      run (evs ++ [move p]) b = Ok tt b' /\
      bitmap (canvas b') = earlier ++ [i] /\
      ink_segments i = [smooth (lastPos b) p] /\
      emitted b' = emitted b ++ [DrawLine p] /\
      lastPos b' = p.
Proof.
  induction evs as [|ev evs IH]; intros b p Hactive Hevs.
  - destruct (move_while_active p b Hactive)
      as (b' & Hrun & Hem & Hlp & _ & (i & Hbm & Hseg) & _).
    exists b', (bitmap (canvas b)), i.
    cbn [app run]. unfold bind. rewrite Hrun. now repeat split.
  - cbn in Hevs. apply andb_true_iff in Hevs as [Hev Hevs].
    destruct (remote_keeps_gesture ev b Hev) as (b1 & Hrun1 & Hact1 & Hlp1 & Hem1).
    rewrite Hactive in Hact1.
    destruct (IH b1 p Hact1 Hevs) as (b' & earlier & i & Hrun & Hbm & Hseg & Hem & Hlp).
    exists b', earlier, i. cbn [app run]. unfold bind. rewrite Hrun1.
    split; [exact Hrun|]. split; [exact Hbm|].
    split; [now rewrite <- Hlp1|]. split; [now rewrite <- Hem1|exact Hlp].
Qed.

(* ================================================================== *)
(** * Recording snapshots *)

Lemma js_index_snoc_last {A : Type} (l : list A) (x : A) :
  Js.index (l ++ [x]) (Js.length l) = Some x.
Proof.
  unfold Js.index, Js.length.
  destruct (Z.ltb_spec (Z.of_nat (List.length l)) 0) as [H|_]; [lia|].
  rewrite Nat2Z.id, nth_error_app2 by lia. now rewrite Nat.sub_diag.
Qed.

Lemma js_index_snoc_before {A : Type} (l : list A) (x : A) (i : Z) :
  i < Js.length l -> Js.index (l ++ [x]) i = Js.index l i.
Proof.
  unfold Js.index, Js.length. intros Hi.
  destruct (Z.ltb_spec i 0) as [_|Hpos]; [reflexivity|].
  apply nth_error_app1. lia.
Qed.

Lemma has_pixels (w h : Z) :
  w <> 0 -> h <> 0 -> (w =? 0) || (h =? 0) = false.
Proof.
  intros Hw Hh. apply orb_false_iff. split; now apply Z.eqb_neq.
Qed.

(** The end of an active gesture on a canvas with pixels, spelled out. *)
Lemma handleDrawEnd_records (b : Board) :
  shouldDraw b = true ->
  width (canvas b) <> 0 -> height (canvas b) <> 0 ->
  exists b1,
    handleDrawEnd b = Ok tt b1 /\
    drawHistory b1 =
      drawHistory b ++
        [mkImageData 0 0 (width (canvas b)) (height (canvas b)) (bitmap (canvas b))] /\
    historyPointer b1 = Js.length (drawHistory b) /\
    canvasRef b1 = canvasRef b.
Proof.
  destruct b as [m [cw ch bm tf ss lw lc lj pa] h hp active lp dr am d rw rh em dl cl].
  cbn [shouldDraw canvas width height]. intros -> Hw Hh.
  eexists. split; [exec; rewrite (has_pixels cw ch Hw Hh); reflexivity|]. cbn.
  split; [reflexivity|]. split; [|reflexivity].
  rewrite js_length_snoc. lia.
Qed.

Lemma deliver_action_layout (a : Action) (b b' : Board) :
  canvasRef b = true ->
  deliver (EvAction a) b = Ok tt b' ->
  ratio b' = ratio b /\ rectWidth b' = rectWidth b /\ rectHeight b' = rectHeight b.
Proof.
  intros Hm.
  change (deliver (EvAction a) b)
    with (actionChanged (Some a) (actionItemClick (Some a) b)).
  assert (Hm0 : canvasRef (actionItemClick (Some a) b) = true)
    by (destruct b; exact Hm).
  unfold actionChanged, bind.
  destruct (actionEffect (Some a) (actionItemClick (Some a) b))
    as [[] b1|err b1] eqn:Hrun; [|discriminate].
  destruct (actionEffect_succeeds_on _ _ _ Hm0 Hrun) as (Hm1 & Hr & Hw & Hh).
  rewrite actionEffect_null by assumption. intros [= <-].
  destruct b, b1. cbn in *. now subst.
Qed.

(** Delivered commands size the canvas for the same window again. *)
Lemma actions_keep_area (acts : list Action) :
  forall b b',
    canvasRef b = true -> history_ok b -> sized_for_window b ->
    run (map EvAction acts) b = Ok tt b' ->
    width (canvas b') = width (canvas b) /\
    height (canvas b') = height (canvas b).
Proof.
  induction acts as [|a acts IH]; intros b b' Hm Hok Hsz Hrun.
  - injection Hrun as <-. now split.
  - destruct (deliver_action a b Hm Hok) as (b1 & Hrun1 & Hh & Hp & Hm1 & _).
    assert (Hok1 : history_ok b1).
    { unfold history_ok. rewrite Hh, Hp. now apply deliver_action_pointer. }
    pose proof (deliver_keeps_size _ _ _ Hrun1 Hsz) as Hsz1.
    destruct (deliver_action_layout a b b1 Hm Hrun1) as (Hr & Hw & Hhh).
    cbn [map run] in Hrun. unfold bind in Hrun. rewrite Hrun1 in Hrun.
    destruct (IH b1 b' Hm1 Hok1 Hsz1 Hrun) as (Hw' & Hh').
    destruct Hsz as (Hsw & Hsh & _), Hsz1 as (Hsw1 & Hsh1 & _).
    split; congruence.
Qed.

(** C3. Ending an active gesture records a snapshot: the current surface
    is appended as the last element of [drawHistory], every earlier
    snapshot keeps its place, and the pointer is the new last index
    [length - 1], wherever it pointed before.  (The capture needs a canvas
    with pixels; on one without, [getImageData] throws and the history and
    the pointer stay as they were.)  So a stroke drawn after any number of
    undos leaves all snapshots in place and adds one. *)
Theorem recording_appends :
  (forall b : Board,
     shouldDraw b = true ->
     width (canvas b) <> 0 -> height (canvas b) <> 0 ->
     exists b',
       handleDrawEnd b = Ok tt b' /\
       drawHistory b' =
         drawHistory b ++
           [mkImageData 0 0 (width (canvas b)) (height (canvas b))
                        (bitmap (canvas b))] /\
       historyPointer b' = Js.length (drawHistory b') - 1 /\
       Js.length (drawHistory b') = Js.length (drawHistory b) + 1 /\
       (forall i x, Js.index (drawHistory b) i = Some x ->
                    Js.index (drawHistory b') i = Some x)) /\
  (forall b : Board,
     shouldDraw b = true ->
     width (canvas b) = 0 \/ height (canvas b) = 0 ->
     exists b',
       handleDrawEnd b = Throw Js.IndexSizeError b' /\
       drawHistory b' = drawHistory b /\
       historyPointer b' = historyPointer b) /\
  (forall (b : Board) (n : nat) (x y : float),
     canvasRef b = true -> history_ok b -> sized_for_window b ->
     width (canvas b) <> 0 -> height (canvas b) <> 0 ->
     exists b' img,
       run (map EvAction (repeat UNDO n) ++ [EvStart (MouseEvent x y); EvEnd]) b
         = Ok tt b' /\
       drawHistory b' = drawHistory b ++ [img] /\
       historyPointer b' = Js.length (drawHistory b)).
Proof.
  split; [|split].
  - intros b Hactive Hw Hh.
    destruct (handleDrawEnd_records b Hactive Hw Hh) as (b1 & Hrun & Hh1 & Hp1 & _).
    exists b1. split; [exact Hrun|]. split; [exact Hh1|].
    rewrite Hh1, js_length_snoc. split; [lia|]. split; [reflexivity|].
    intros i x Hi. rewrite js_index_snoc_before; [exact Hi|].
    unfold Js.index, Js.length in *. destruct (i <? 0); [discriminate|].
    assert (nth_error (drawHistory b) (Z.to_nat i) <> None) as Hn by congruence.
    apply nth_error_Some in Hn. lia.
  - intros b Hactive Hzero.
    destruct b as [m [cw ch bm tf ss lw lc lj pa] h hp active lp dr am d rw rh em dl cl].
    cbn [shouldDraw canvas width height] in Hactive, Hzero. subst active.
    assert (Hz : (cw =? 0) || (ch =? 0) = true).
    { apply orb_true_iff. destruct Hzero as [->| ->]; [now left|now right]. }
    eexists. split; [exec; rewrite Hz; reflexivity|]. now split.
  - intros b n x y Hm Hok Hsz Hw Hh.
    destruct (run_actions (repeat UNDO n) b Hm Hok) as (b1 & Hrun & Hh1 & _ & _).
    destruct (actions_keep_area _ _ _ Hm Hok Hsz Hrun) as (Hw1 & Hhh1).
    assert (Hrun_app : forall evs1 evs2 s s1,
               run evs1 s = Ok tt s1 -> run (evs1 ++ evs2) s = run evs2 s1).
    { induction evs1 as [|ev evs1 IH]; intros evs2 s s1 H1.
      - injection H1 as <-. reflexivity.
      - cbn [app run] in *. unfold bind in *.
        destruct (deliver ev s) as [[] s'|e s']; [|discriminate H1].
        now apply IH. }
    rewrite (Hrun_app _ _ _ _ Hrun).
    cbn [run]. unfold bind at 1.
    assert (Hstart : exists b2,
               deliver (EvStart (MouseEvent x y)) b1 = Ok tt b2 /\
               shouldDraw b2 = true /\
               drawHistory b2 = drawHistory b1 /\
               width (canvas b2) = width (canvas b1) /\
               height (canvas b2) = height (canvas b1)).
    { destruct b1 as [m1 []]. eexists. split; [exec; reflexivity|]. now repeat split. }
    destruct Hstart as (b2 & -> & Hactive & Hh2 & Hw2 & Hhh2).
    unfold bind. change (deliver EvEnd b2) with (handleDrawEnd b2).
    destruct (handleDrawEnd_records b2 Hactive ltac:(congruence) ltac:(congruence))
      as (b3 & -> & Hh3 & Hp3 & _).
    exists b3. eexists. split; [reflexivity|].
    split; [rewrite Hh3, Hh2, Hh1; reflexivity|].
    rewrite Hp3, Hh2, Hh1. reflexivity.
Qed.

(** X9. What the end of a gesture captures is what redo puts back: after
    [handleDrawEnd] on a mounted board whose canvas has pixels, the effect
    run for redo stays at the new last index and paints, onto the freshly
    sized surface, exactly the raster that was captured, the whole canvas
    as it was when the gesture ended. *)
Theorem redo_restores_what_was_captured :
  forall b : Board,
    canvasRef b = true -> shouldDraw b = true ->
    width (canvas b) <> 0 -> height (canvas b) <> 0 ->
    exists b1 b2,
      handleDrawEnd b = Ok tt b1 /\
      actionEffect (Some REDO) b1 = Ok tt b2 /\
      historyPointer b2 = Js.length (drawHistory b) /\
      bitmap (canvas b2) =
        [InkPut 0 0 (width (canvas b)) (height (canvas b)) (bitmap (canvas b)) 0 0].
Proof.
  intros b Hm Hactive Hw Hh.
  destruct (handleDrawEnd_records b Hactive Hw Hh) as (b1 & Hrun1 & Hh1 & Hp1 & Hm1).
  rewrite Hm in Hm1.
  assert (Hnew : newPointer REDO b1 = Js.length (drawHistory b)).
  { unfold newPointer. rewrite Hh1, Hp1, js_length_snoc. lia. }
  exists b1. eexists. split; [exact Hrun1|].
  rewrite actionEffect_history by (assumption || discriminate).
  rewrite Hnew, Hh1, js_index_snoc_last.
  split; [reflexivity|]. destruct b1. cbn in *. now subst.
Qed.

(** X10. Undo after a stroke goes back one snapshot from the end, not
    from where the pointer was: when a gesture ends on a mounted board
    that already holds snapshots and whose canvas has pixels, the effect
    run for undo puts the pointer at the last index the history had before
    and paints the snapshot there, however far back the pointer had been
    moved before the stroke. *)
Theorem undo_after_stroke_paints_previous_last :
  forall b : Board,
    canvasRef b = true -> shouldDraw b = true -> drawHistory b <> [] ->
    width (canvas b) <> 0 -> height (canvas b) <> 0 ->
    exists b1 b2 img,
      handleDrawEnd b = Ok tt b1 /\
      actionEffect (Some UNDO) b1 = Ok tt b2 /\
      historyPointer b2 = Js.length (drawHistory b) - 1 /\
      Js.index (drawHistory b) (Js.length (drawHistory b) - 1) = Some img /\
      bitmap (canvas b2) = [ink_of_image img 0 0].
Proof.
  intros b Hm Hactive Hne Hw Hh.
  destruct (handleDrawEnd_records b Hactive Hw Hh) as (b1 & Hrun1 & Hh1 & Hp1 & Hm1).
  rewrite Hm in Hm1.
  assert (Hlen : 0 < Js.length (drawHistory b)).
  { unfold Js.length. destruct (drawHistory b); [congruence|cbn; lia]. }
  assert (Hnew : newPointer UNDO b1 = Js.length (drawHistory b) - 1).
  { unfold newPointer. rewrite Hp1. lia. }
  destruct (js_index_in_range (drawHistory b) (Js.length (drawHistory b) - 1)
              ltac:(lia)) as (img & Himg).
  exists b1. eexists. exists img. split; [exact Hrun1|].
  rewrite actionEffect_history by (assumption || discriminate).
  rewrite Hnew, Hh1, js_index_snoc_before by lia. rewrite Himg.
  split; [reflexivity|]. split; [destruct b1; reflexivity|].
  split; [reflexivity|]. now destruct b1.
Qed.


End Browser.

(* ================================================================== *)
(** * The component in a browser that parses hexadecimal colours

    The statements above hold for every colour parser.  Below they are
    applied, and the component is run, with [Css.hex_color]. *)

(** C2. The pointer of an undo or redo is clamped as claimed, but the
    snapshot at the resulting pointer is not what the surface shows once
    the command has been handled.  On a board with two recorded strokes a
    delivered undo, and likewise a delivered redo, returns with the
    pointer at [max 0 (p - 1)], respectively [min (length - 1) (p + 1)],
    where a snapshot with ink is stored, and with a blank surface: the
    effect paints the snapshot and clears the command, and the cleared
    command runs the effect again, which sizes the canvas. *)
Theorem delivered_undo_redo_leave_blank_surface :
  (exists b' img,
     deliver Css.hex_color (EvAction UNDO) (sample_board Css.hex_color) = Ok tt b' /\
     historyPointer b' =
       Z.max 0 (historyPointer (sample_board Css.hex_color) - 1) /\
     Js.index (drawHistory b') (historyPointer b') = Some img /\
     idata img <> [] /\
     bitmap (canvas b') = []) /\
  (exists b' img,
     deliver Css.hex_color (EvAction REDO) (sample_board Css.hex_color) = Ok tt b' /\
     historyPointer b' =
       Z.min (Js.length (drawHistory (sample_board Css.hex_color)) - 1)
             (historyPointer (sample_board Css.hex_color) + 1) /\
     Js.index (drawHistory b') (historyPointer b') = Some img /\
     idata img <> [] /\
     bitmap (canvas b') = []).
Proof.
  split; do 2 eexists;
    (split; [vm_compute; reflexivity|]);
    (split; [vm_compute; reflexivity|]);
    (split; [vm_compute; reflexivity|]);
    (split; [vm_compute; discriminate|reflexivity]).
Qed.

(** C9. A received [ConfigMessage {color: "#ff0000", size: 4}] sets the
    stroke style and the line width at once, but they do not reach the
    next segment when the canvas is sized in between: after a window
    resize, and likewise after a delivered download, the next segment,
    received as [BeginPath {5, 5}] and [DrawLine {15, 5}], is stroked in
    the context's default style, black and one unit wide.  The sizing code
    re-applies the scale, the line cap and the line join, and not the
    stroke style and line width. *)
Theorem config_lost_when_canvas_is_sized :
  (exists b1,
     deliver Css.hex_color (EvChangeConfig (mkConfig "#ff0000" 4))
             (sample_board Css.hex_color) = Ok tt b1 /\
     strokeStyle (canvas b1) = "#ff0000"%string /\
     lineWidth (canvas b1) = 4%float) /\
  (exists path pen tf,
     bitmap (canvas (final
       (run Css.hex_color
            [EvChangeConfig (mkConfig "#ff0000" 4); EvResize 2 1024 768;
             EvBeginPath (mkPoint 5 5); EvDrawLine (mkPoint 15 5)]
            (sample_board Css.hex_color)))) = [InkStroke path pen tf] /\
     segments path = [SegLine (mkPoint 5 5) (mkPoint 15 5)] /\
     pen_color pen = "#000000"%string /\
     pen_width pen = 1%float /\
     ~ inked_with "#ff0000" 4 (InkStroke path pen tf)) /\
  (exists path pen tf,
     bitmap (canvas (final
       (run Css.hex_color
            [EvChangeConfig (mkConfig "#ff0000" 4); EvAction DOWNLOAD;
             EvBeginPath (mkPoint 5 5); EvDrawLine (mkPoint 15 5)]
            (sample_board Css.hex_color)))) = [InkStroke path pen tf] /\
     segments path = [SegLine (mkPoint 5 5) (mkPoint 15 5)] /\
     pen_color pen = "#000000"%string /\
     pen_width pen = 1%float /\
     ~ inked_with "#ff0000" 4 (InkStroke path pen tf)).
Proof.
  split; [|split].
  - eexists. split; [vm_compute; reflexivity|]. split; reflexivity.
  - do 3 eexists. split; [vm_compute; reflexivity|].
    split; [reflexivity|]. split; [reflexivity|]. split; [reflexivity|].
    cbn. intros [H _]. discriminate H.
  - do 3 eexists. split; [vm_compute; reflexivity|].
    split; [reflexivity|]. split; [reflexivity|]. split; [reflexivity|].
    cbn. intros [H _]. discriminate H.
Qed.

Lemma recording_appends_witness :
  exists b' img,
    run Css.hex_color
        (map EvAction (repeat UNDO 3) ++ [EvStart (MouseEvent 1 2); EvEnd])
        (sample_board Css.hex_color) = Ok tt b' /\
    drawHistory b' = drawHistory (sample_board Css.hex_color) ++ [img] /\
    historyPointer b' = Js.length (drawHistory (sample_board Css.hex_color)).
Proof.
  apply (proj2 (proj2 (recording_appends Css.hex_color))
           (sample_board Css.hex_color) 3%nat 1%float 2%float).
  - reflexivity.
  - unfold history_ok. vm_compute. split; [discriminate|reflexivity].
  - unfold sized_for_window. vm_compute. now repeat split.
  - vm_compute. discriminate.
  - vm_compute. discriminate.
Defined.

Lemma config_applies_to_next_segment_witness :
  exists added,
    bitmap (canvas (final
      (run Css.hex_color
           (EvChangeConfig (mkConfig "#ff0000" 4)
              :: [EvBeginPath (mkPoint 5 5); EvDrawLine (mkPoint 15 5);
                  EvStart (MouseEvent 0 0); EvMove (MouseEvent 10 0); EvEnd])
           (sample_board Css.hex_color)))) =
      bitmap (canvas (sample_board Css.hex_color)) ++ added /\
    Forall (inked_with "#ff0000" 4) added.
Proof.
  apply (proj1 (proj2 (proj2 (proj2 (proj2
           (config_applies_to_next_segment Css.hex_color)))))
           (sample_board Css.hex_color) (mkConfig "#ff0000" 4));
    reflexivity.
Defined.

Lemma redo_restores_what_was_captured_witness :
  exists b1 b2,
    handleDrawEnd (drawing_board Css.hex_color) = Ok tt b1 /\
    actionEffect (Some REDO) b1 = Ok tt b2 /\
    historyPointer b2 = Js.length (drawHistory (drawing_board Css.hex_color)) /\
    bitmap (canvas b2) =
      [InkPut 0 0 (width (canvas (drawing_board Css.hex_color)))
              (height (canvas (drawing_board Css.hex_color)))
              (bitmap (canvas (drawing_board Css.hex_color))) 0 0].
Proof.
  apply (redo_restores_what_was_captured (drawing_board Css.hex_color));
    [reflexivity|reflexivity| |]; vm_compute; discriminate.
Defined.

Lemma undo_after_stroke_paints_previous_last_witness :
  exists b1 b2 img,
    handleDrawEnd (drawing_board Css.hex_color) = Ok tt b1 /\
    actionEffect (Some UNDO) b1 = Ok tt b2 /\
    historyPointer b2 = Js.length (drawHistory (drawing_board Css.hex_color)) - 1 /\
    Js.index (drawHistory (drawing_board Css.hex_color))
             (Js.length (drawHistory (drawing_board Css.hex_color)) - 1) = Some img /\
    bitmap (canvas b2) = [ink_of_image img 0 0].
Proof.
  apply (undo_after_stroke_paints_previous_last (drawing_board Css.hex_color));
    [reflexivity|reflexivity| | |]; vm_compute; discriminate.
Defined.


Lemma strokes_after_mount_use_tool_style_witness :
  Forall (inked_with "#112233" 3)
         (bitmap (canvas (final
            (run Css.hex_color
                 (gesture (mkPoint 1 2) [mkPoint 3 4; mkPoint 5 6]
                    ++ [EvEnd; EvBeginPath (mkPoint 5 5); EvDrawLine (mkPoint 15 5)])
                 (mounted Css.hex_color 2 800 600 "#112233" 3))))).
Proof.
  apply (strokes_after_mount_use_tool_style Css.hex_color
           2 800 600 "#112233" 3
           (gesture (mkPoint 1 2) [mkPoint 3 4; mkPoint 5 6]
              ++ [EvEnd; EvBeginPath (mkPoint 5 5); EvDrawLine (mkPoint 15 5)])).
  reflexivity.
Defined.

Lemma move_outside_gesture_is_noop_witness :
  handleDrawMove (MouseEvent 4 2)
    (final (run Css.hex_color [EvMove (MouseEvent 1 1); EvEnd] (mounted Css.hex_color 2 800 600 "#112233" 3))) =
  Ok tt (final (run Css.hex_color [EvMove (MouseEvent 1 1); EvEnd]
                    (mounted Css.hex_color 2 800 600 "#112233" 3))).
Proof.
  apply (proj1 (proj2 (move_outside_gesture_is_noop Css.hex_color))). reflexivity.
Defined.

Lemma pointer_stays_in_range_witness :
  exists b',
    run Css.hex_color (map EvAction [UNDO; UNDO; REDO; REDO; REDO]) (sample_board Css.hex_color) = Ok tt b' /\
    drawHistory b' = drawHistory (sample_board Css.hex_color) /\
    0 <= historyPointer b' <= Js.length (drawHistory (sample_board Css.hex_color)) - 1.
Proof.
  apply (pointer_stays_in_range Css.hex_color (sample_board Css.hex_color) [UNDO; UNDO; REDO; REDO; REDO]).
  - exists 2%float, 800%float, 600%float, "#112233"%string, 3%float, two_strokes.
    vm_compute. reflexivity.
  - vm_compute. discriminate.
Defined.

Lemma action_effect_sizes_canvas_first_witness :
  transform (canvas (final (actionEffect (Some UNDO) (sample_board Css.hex_color)))) =
    [(ratio (sample_board Css.hex_color), ratio (sample_board Css.hex_color))] /\
  width (canvas (final (actionEffect (Some UNDO) (sample_board Css.hex_color)))) =
    Canvas2D.dimension (rectWidth (sample_board Css.hex_color) * ratio (sample_board Css.hex_color)) 300.
Proof.
  pose proof (action_effect_sizes_canvas_first Css.hex_color (Some UNDO) (sample_board Css.hex_color)
                ltac:(reflexivity)) as (_ & Ht & Hw & _).
  exact (conj Ht Hw).
Defined.

Lemma nothing_sent_without_pointer_input_witness :
  emitted (final (run Css.hex_color [EvBeginPath (mkPoint 5 5); EvDrawLine (mkPoint 15 5);
                       EvChangeConfig (mkConfig "#ff0000" 4); EvEnd;
                       EvAction REDO; EvResize 1 640 480]
                      (drawing_board Css.hex_color))) =
  emitted (drawing_board Css.hex_color).
Proof.
  apply (nothing_sent_without_pointer_input Css.hex_color). reflexivity.
Defined.

Lemma cursor_follows_gesture_witness :
  isDrawing (drawing_board Css.hex_color) = shouldDraw (drawing_board Css.hex_color) /\
  cursor (drawing_board Css.hex_color) =
    (if shouldDraw (drawing_board Css.hex_color) then "grabbing" else "grab")%string.
Proof.
  apply (cursor_follows_gesture Css.hex_color).
  exists 2%float, 800%float, 600%float, "#112233"%string, 3%float,
    (two_strokes ++ gesture (mkPoint 1 2) [mkPoint 3 4]).
  vm_compute. reflexivity.
Defined.

Lemma repeated_undo_redo_witness :
  (exists b',
     run Css.hex_color (map EvAction (repeat UNDO 5)) (sample_board Css.hex_color) = Ok tt b' /\
     historyPointer b' = Z.max 0 (historyPointer (sample_board Css.hex_color) - Z.of_nat 5) /\
     drawHistory b' = drawHistory (sample_board Css.hex_color)) /\
  (exists b',
     run Css.hex_color (map EvAction (repeat REDO 5)) (sample_board Css.hex_color) = Ok tt b' /\
     historyPointer b' =
       Z.min (Js.length (drawHistory (sample_board Css.hex_color)) - 1)
             (historyPointer (sample_board Css.hex_color) + Z.of_nat 5) /\
     drawHistory b' = drawHistory (sample_board Css.hex_color)).
Proof.
  apply (repeated_undo_redo Css.hex_color (sample_board Css.hex_color) 5).
  - reflexivity.
  - unfold history_ok. vm_compute. split; [discriminate|reflexivity].
Defined.

Lemma undo_redo_round_trip_witness :
  exists b', run Css.hex_color [EvAction REDO; EvAction UNDO] (sample_board Css.hex_color) = Ok tt b' /\
             historyPointer b' = historyPointer (sample_board Css.hex_color) /\
             drawHistory b' = drawHistory (sample_board Css.hex_color).
Proof.
  apply (proj2 (undo_redo_round_trip Css.hex_color (sample_board Css.hex_color) ltac:(reflexivity)
                  ltac:(unfold history_ok; vm_compute;
                        split; [discriminate|reflexivity]))).
  vm_compute. reflexivity.
Defined.


Lemma command_throws_exactly_on_empty_history_witness :
  (succeeded (deliver Css.hex_color (EvAction REDO) (mounted Css.hex_color 2 800 600 "#112233" 3)) = false <->
   REDO <> DOWNLOAD /\ drawHistory (mounted Css.hex_color 2 800 600 "#112233" 3) = []) /\
  actionMenuItem (final (deliver Css.hex_color (EvAction REDO) (mounted Css.hex_color 2 800 600 "#112233" 3))) =
    (if succeeded (deliver Css.hex_color (EvAction REDO) (mounted Css.hex_color 2 800 600 "#112233" 3))
     then None else Some REDO).
Proof.
  apply (command_throws_exactly_on_empty_history Css.hex_color
           (mounted Css.hex_color 2 800 600 "#112233" 3) REDO).
  exists 2%float, 800%float, 600%float, "#112233"%string, 3%float, [].
  reflexivity.
Defined.

Lemma reachable_canvas_is_sized_witness : sized_for_window (sample_board Css.hex_color).
Proof.
  apply (reachable_canvas_is_sized Css.hex_color).
  exists 2%float, 800%float, 600%float, "#112233"%string, 3%float, two_strokes.
  vm_compute. reflexivity.
Defined.

Lemma resize_during_gesture_witness :
  exists b' path,
    run Css.hex_color [EvResize 1 640 480; move (mkPoint 9 9)] (drawing_board Css.hex_color) = Ok tt b' /\
    bitmap (canvas b') =
      [InkStroke path (mkPen "#000000" 1 CapRound JoinRound)
                 [(Js.or_else 1 1, Js.or_else 1 1)]] /\
    segments path = [smooth (lastPos (drawing_board Css.hex_color)) (mkPoint 9 9)] /\
    emitted b' = emitted (drawing_board Css.hex_color) ++ [DrawLine (mkPoint 9 9)] /\
    shouldDraw b' = true /\
    drawHistory b' = drawHistory (drawing_board Css.hex_color) /\
    historyPointer b' = historyPointer (drawing_board Css.hex_color).
Proof.
  apply (resize_during_gesture Css.hex_color (drawing_board Css.hex_color) 1 640 480 (mkPoint 9 9)).
  reflexivity.
Defined.

Lemma local_move_captures_remote_path_witness :
  exists b' earlier i,
    run Css.hex_color [EvBeginPath (mkPoint 5 5); move (mkPoint 7 8); EvDrawLine (mkPoint 15 5)]
        (drawing_board Css.hex_color) = Ok tt b' /\
    segments (path (canvas b')) =
      [smooth (lastPos (drawing_board Css.hex_color)) (mkPoint 7 8);
       SegLine (mkPoint 7 8) (mkPoint 15 5)] /\
    bitmap (canvas b') = earlier ++ [i] /\
    ink_segments i =
      [smooth (lastPos (drawing_board Css.hex_color)) (mkPoint 7 8);
       SegLine (mkPoint 7 8) (mkPoint 15 5)].
Proof.
  apply (local_move_captures_remote_path Css.hex_color (drawing_board Css.hex_color)
           (mkPoint 5 5) (mkPoint 7 8) (mkPoint 15 5)).
  reflexivity.
Defined.

Lemma remote_strokes_leave_local_gesture_alone_witness :
  exists b' earlier i,
    run Css.hex_color ([EvBeginPath (mkPoint 5 5); EvDrawLine (mkPoint 15 5)]
           ++ [move (mkPoint 7 8)]) (drawing_board Css.hex_color) = Ok tt b' /\
    bitmap (canvas b') = earlier ++ [i] /\
    ink_segments i = [smooth (lastPos (drawing_board Css.hex_color)) (mkPoint 7 8)] /\
    emitted b' = emitted (drawing_board Css.hex_color) ++ [DrawLine (mkPoint 7 8)] /\
    lastPos b' = mkPoint 7 8.
Proof.
  apply (remote_strokes_leave_local_gesture_alone Css.hex_color
           [EvBeginPath (mkPoint 5 5); EvDrawLine (mkPoint 15 5)]
           (drawing_board Css.hex_color) (mkPoint 7 8)); reflexivity.
Defined.
